(** * Elastic serverless agent: SQS trigger, include/exclude filter and
    Elasticsearch shipper

    A shallow embedding of
    - [share/include_exlude.py]  (the include/exclude content filter),
    - [share/config.py]          (the input registry of [Config]),
    - [handlers/aws/sqs_trigger.py] (the offset-resumable driver),
    - [shippers/es.py]           (the bulk sink and its document identifier),
    followed by the properties proved about them.

    Conventions.  A Python [str] is represented by its UTF-8 encoding, as a
    Rocq [string]; [bytes] are lists of [byte].  With this representation
    [s.encode("utf-8")] is the identity on the underlying octets and
    [b.decode("UTF-8")] succeeds exactly on well-formed UTF-8.  Python
    integers are [Z].  Dictionaries used as maps are [gmap]s. *)

From Stdlib Require Import ZArith NArith List Ascii String Strings.Byte Bool Lia.
From stdpp Require Import base option list strings gmap.

Import ListNotations.
Local Open Scope Z_scope.

(** ** Octets and text *)

Abbreviation bytes := (list byte).

Definition encode_utf8 (s : string) : bytes := list_byte_of_string s.

Definition byte_val (b : byte) : Z := Z.of_N (Byte.to_N b).

Definition in_range (lo hi : Z) (b : byte) : bool :=
  (lo <=? byte_val b) && (byte_val b <=? hi).

(** Well-formed UTF-8 (Unicode, table 3-7): the sequences the strict
    decoder of [bytes.decode("UTF-8")] accepts.  Overlong forms,
    surrogates and code points above U+10FFFF are rejected. *)
Fixpoint utf8_well_formed_fuel (fuel : nat) (bs : bytes) : bool :=
  match fuel with
  | O => match bs with [] => true | _ => false end
  | S fuel' =>
    match bs with
    | [] => true
    | b0 :: r0 =>
      if in_range 0x00 0x7F b0 then utf8_well_formed_fuel fuel' r0
      else match r0 with
      | [] => false
      | b1 :: r1 =>
        if in_range 0xC2 0xDF b0 then
          in_range 0x80 0xBF b1 && utf8_well_formed_fuel fuel' r1
        else match r1 with
        | [] => false
        | b2 :: r2 =>
          if in_range 0xE0 0xEF b0 then
            (if in_range 0xE0 0xE0 b0 then in_range 0xA0 0xBF b1
             else if in_range 0xED 0xED b0 then in_range 0x80 0x9F b1
             else in_range 0x80 0xBF b1)
            && in_range 0x80 0xBF b2 && utf8_well_formed_fuel fuel' r2
          else match r2 with
          | [] => false
          | b3 :: r3 =>
            if in_range 0xF0 0xF4 b0 then
              (if in_range 0xF0 0xF0 b0 then in_range 0x90 0xBF b1
               else if in_range 0xF4 0xF4 b0 then in_range 0x80 0x8F b1
               else in_range 0x80 0xBF b1)
              && in_range 0x80 0xBF b2 && in_range 0x80 0xBF b3
              && utf8_well_formed_fuel fuel' r3
            else false
          end
        end
      end
    end
  end.

Definition utf8_well_formed (bs : bytes) : bool :=
  utf8_well_formed_fuel (length bs) bs.

(** [bytes.decode("UTF-8")]: [None] stands for [UnicodeDecodeError]. *)
Definition decode_utf8 (bs : bytes) : option string :=
  if utf8_well_formed bs then Some (string_of_list_byte bs) else None.

(** ** hashlib.sha256

    SHA-256 as in FIPS 180-4, on 32-bit words held in [N] with the
    wrap-around written out. *)
Module hashlib.

Local Open Scope N_scope.

Definition wrap32 (x : N) : N := x mod 2 ^ 32.
Definition plus32 (x y : N) : N := wrap32 (x + y).
Definition rotr (n x : N) : N :=
  N.lor (N.shiftr x n) (wrap32 (N.shiftl x (32 - n))).
Definition not32 (x : N) : N := N.lxor x (2 ^ 32 - 1).

Definition choose (e f g : N) : N :=
  N.lxor (N.land e f) (N.land (not32 e) g).
Definition majority (a b c : N) : N :=
  N.lxor (N.lxor (N.land a b) (N.land a c)) (N.land b c).
Definition big_sigma0 (a : N) : N :=
  N.lxor (N.lxor (rotr 2 a) (rotr 13 a)) (rotr 22 a).
Definition big_sigma1 (e : N) : N :=
  N.lxor (N.lxor (rotr 6 e) (rotr 11 e)) (rotr 25 e).
Definition small_sigma0 (x : N) : N :=
  N.lxor (N.lxor (rotr 7 x) (rotr 18 x)) (N.shiftr x 3).
Definition small_sigma1 (x : N) : N :=
  N.lxor (N.lxor (rotr 17 x) (rotr 19 x)) (N.shiftr x 10).

(** The constants are the leading 32 fractional bits of the square
    roots (initial state) and cube roots (round constants) of the
    first primes; they are computed from that definition. *)
Definition first_primes : list N :=
  [2; 3; 5; 7; 11; 13; 17; 19; 23; 29; 31; 37; 41; 43; 47; 53;
   59; 61; 67; 71; 73; 79; 83; 89; 97; 101; 103; 107; 109; 113; 127; 131;
   137; 139; 149; 151; 157; 163; 167; 173; 179; 181; 191; 193; 197; 199;
   211; 223; 227; 229; 233; 239; 241; 251; 257; 263; 269; 271; 277; 281;
   283; 293; 307; 311].

Fixpoint cube_root_bits (bits : nat) (n r : N) : N :=
  match bits with
  | O => r
  | S b =>
    let r' := r + 2 ^ N.of_nat b in
    if r' * r' * r' <=? n then cube_root_bits b n r' else cube_root_bits b n r
  end.

Definition frac_sqrt32 (p : N) : N := wrap32 (N.sqrt (p * 2 ^ 64)).
Definition frac_cbrt32 (p : N) : N := wrap32 (cube_root_bits 36 (p * 2 ^ 96) 0).

Definition initial_state : list N :=
  Eval vm_compute in List.map frac_sqrt32 (firstn 8 first_primes).
Definition round_constants : list N :=
  Eval vm_compute in List.map frac_cbrt32 first_primes.

(** Padding: a 1 bit, zero bits up to 56 modulo 64 octets, then the
    message length in bits as a big-endian 64-bit integer. *)
Fixpoint big_endian (width : nat) (x : N) : list N :=
  match width with
  | O => []
  | S w => (N.shiftr x (8 * N.of_nat w)) mod 256 :: big_endian w x
  end.

Definition pad (msg : list N) : list N :=
  let len := N.of_nat (length msg) in
  let zeros := N.to_nat ((119 - len mod 64) mod 64) in
  msg ++ 0x80 :: repeat 0 zeros ++ big_endian 8 (8 * len).

Fixpoint words_of_octets (fuel : nat) (bs : list N) : list N :=
  match fuel, bs with
  | S f, b0 :: b1 :: b2 :: b3 :: r =>
    (b0 * 2 ^ 24 + b1 * 2 ^ 16 + b2 * 2 ^ 8 + b3) :: words_of_octets f r
  | _, _ => []
  end.

(** The message schedule, most recent word first. *)
Fixpoint extend_schedule (k : nat) (rev_w : list N) : list N :=
  match k with
  | O => rev_w
  | S k' =>
    let w := plus32 (plus32 (small_sigma1 (nth 1 rev_w 0)) (nth 6 rev_w 0))
                    (plus32 (small_sigma0 (nth 14 rev_w 0)) (nth 15 rev_w 0)) in
    extend_schedule k' (w :: rev_w)
  end.

Definition schedule (block : list N) : list N :=
  rev (extend_schedule 48 (rev block)).

Record registers := Regs { ra : N; rb : N; rc : N; rd : N; re : N; rf : N; rg : N; rh : N }.

Definition round (s : registers) (kw : N * N) : registers :=
  let t1 := plus32 (plus32 (plus32 (rh s) (big_sigma1 (re s)))
                           (plus32 (choose (re s) (rf s) (rg s)) (fst kw))) (snd kw) in
  let t2 := plus32 (big_sigma0 (ra s)) (majority (ra s) (rb s) (rc s)) in
  Regs (plus32 t1 t2) (ra s) (rb s) (rc s) (plus32 (rd s) t1) (re s) (rf s) (rg s).

Definition compress (h : registers) (block : list N) : registers :=
  let s := fold_left round (combine round_constants (schedule block)) h in
  Regs (plus32 (ra h) (ra s)) (plus32 (rb h) (rb s)) (plus32 (rc h) (rc s))
       (plus32 (rd h) (rd s)) (plus32 (re h) (re s)) (plus32 (rf h) (rf s))
       (plus32 (rg h) (rg s)) (plus32 (rh h) (rh s)).

Fixpoint blocks (fuel : nat) (ws : list N) : list (list N) :=
  match fuel, ws with
  | S f, _ :: _ => firstn 16 ws :: blocks f (skipn 16 ws)
  | _, _ => []
  end.

Definition start : registers :=
  match initial_state with
  | [a; b; c; d; e; f; g; h] => Regs a b c d e f g h
  | _ => Regs 0 0 0 0 0 0 0 0
  end.

Definition sha256_words (msg : list N) : list N :=
  let padded := pad msg in
  let ws := words_of_octets (length padded) padded in
  let s := fold_left compress (blocks (length ws) ws) start in
  [ra s; rb s; rc s; rd s; re s; rf s; rg s; rh s].

Definition hex_digit (d : N) : ascii :=
  ascii_of_N (if d <? 10 then 48 + d else 87 + d).

Fixpoint hex_of_word (nibbles : nat) (x : N) (tail : string) : string :=
  match nibbles with
  | O => tail
  | S n => String (hex_digit ((N.shiftr x (4 * N.of_nat n)) mod 16)) (hex_of_word n x tail)
  end.

(** [hashlib.sha256(data).hexdigest()] *)
Definition sha256_hexdigest (data : bytes) : string :=
  fold_right (hex_of_word 8) EmptyString (sha256_words (List.map Byte.to_N data)).

End hashlib.

(** ** Exceptions and results *)

Inductive exn : Type :=
| AssertionError
| ValueError (msg : string)
| HyperscanError
| UnicodeDecodeError
| Exception (msg : string).

Inductive result (A : Type) : Type :=
| Ok (a : A)
| Raise (e : exn).
Arguments Ok {A} a.
Arguments Raise {A} e.

(** ** The pattern matcher (hyperscan)

    The engine is an external collaborator.  Its interface is the part of
    [hyperscan.Database] the filter uses: [compile] on a list of
    (expression, id, flags) triples, and [scan], which delivers the id of
    every matching expression to a handler until the handler asks to halt,
    and may end by raising [hyperscan.error]. *)
Module hyperscan.

Definition HS_FLAG_DOTALL : Z := 2.

Abbreviation database := (list (bytes * Z * Z)).

Class Engine : Type := {
  (** [compile] accepts the expressions *)
  compiles : database -> bool;
  (** the expression, under these flags, matches somewhere in the line *)
  matches : bytes -> Z -> bytes -> bool;
  (** the scan of this line ends by raising [hyperscan.error]; the last
      argument tells whether the handler halted the scan *)
  scan_fails : database -> bytes -> bool -> bool
}.

Section Scan.
Context `{Engine} {S : Type}.

(** Match events are handed to [handler]; a true answer halts.  One
    event per matching expression, in the order of the database: the
    engine's own order and repetitions make no difference to a handler
    that, like [on_match] below, halts at the first event. *)
Fixpoint deliver (db : database) (line : bytes)
         (handler : Z -> S -> S * bool) (st : S) : S * bool :=
  match db with
  | [] => (st, false)
  | (e, i, fl) :: rest =>
    if matches e fl line then
      let '(st', halt) := handler i st in
      if halt then (st', true) else deliver rest line handler st'
    else deliver rest line handler st
  end.

Definition scan (db : database) (line : bytes)
           (handler : Z -> S -> S * bool) (st : S) : S * result unit :=
  let '(st', halted) := deliver db line handler st in
  (st', if scan_fails db line halted then Raise HyperscanError else Ok tt).
End Scan.

(** What the engine was asked to do, in order. *)
Inductive call : Type :=
| Compile (db : database)
| Scan (db : database) (line : bytes).

End hyperscan.

(** ** share/include_exlude.py *)
Module include_exlude.

Import hyperscan.

Record IncludeExcludeRule : Type := {
  patterns : list string;
  hyperscan_db : database
}.

(** [enumerate(self.patterns)] turned into (expression, id, flags) *)
Fixpoint hyperscan_patterns (pattern_n : Z) (ps : list string) : database :=
  match ps with
  | [] => []
  | pattern :: rest =>
    (encode_utf8 pattern, pattern_n + 1, HS_FLAG_DOTALL)
      :: hyperscan_patterns (pattern_n + 1) rest
  end.

Record IncludeExcludeFilter : Type := {
  _include_rules : option IncludeExcludeRule;
  _exclude_rules : option IncludeExcludeRule;
  _always_yield : bool;
  _include_only : bool;
  _exclude_only : bool;
  _is_included_matched : bool;
  _is_excluded_matched : bool
}.

Definition set_is_included_matched (v : bool) (self : IncludeExcludeFilter) :=
  {| _include_rules := _include_rules self;
     _exclude_rules := _exclude_rules self;
     _always_yield := _always_yield self;
     _include_only := _include_only self;
     _exclude_only := _exclude_only self;
     _is_included_matched := v;
     _is_excluded_matched := _is_excluded_matched self |}.

Definition set_is_excluded_matched (v : bool) (self : IncludeExcludeFilter) :=
  {| _include_rules := _include_rules self;
     _exclude_rules := _exclude_rules self;
     _always_yield := _always_yield self;
     _include_only := _include_only self;
     _exclude_only := _exclude_only self;
     _is_included_matched := _is_included_matched self;
     _is_excluded_matched := v |}.

(** The nested [on_match] of both scans: the captured flag is the
    handler state; [True] halts the scan, [None] lets it go on. *)
Definition on_match (match_id : Z) (matched : bool) : bool * bool :=
  if 0 <? match_id then (true, true) else (matched, false).

Section WithEngine.
Context `{Engine}.

(** [IncludeExcludeRule.__init__]: unpacking [zip( *triples)] into
    three names fails on an empty pattern list. *)
Definition IncludeExcludeRule_init (ps : list string)
  : result IncludeExcludeRule * list call :=
  let db := hyperscan_patterns 0 ps in
  match db with
  | [] => (Raise (ValueError "not enough values to unpack (expected 3, got 0)"), [])
  | _ :: _ =>
    if compiles db
    then (Ok {| patterns := ps; hyperscan_db := db |}, [Compile db])
    else (Raise HyperscanError, [Compile db])
  end.

(** One optional rule set of [IncludeExcludeFilter.__init__]. *)
Definition optional_rules (ps : option (list string))
  : result (option IncludeExcludeRule) * list call :=
  match ps with
  | None => (Ok None, [])
  | Some l =>
    if (0 <? Z.of_nat (length l)) then
      match IncludeExcludeRule_init l with
      | (Ok r, log) => (Ok (Some r), log)
      | (Raise e, log) => (Raise e, log)
      end
    else (Ok None, [])
  end.

Definition IncludeExcludeFilter_init
           (include_patterns exclude_patterns : option (list string))
  : result IncludeExcludeFilter * list call :=
  match optional_rules include_patterns with
  | (Raise e, log) => (Raise e, log)
  | (Ok inc, log1) =>
    match optional_rules exclude_patterns with
    | (Raise e, log2) => (Raise e, log1 ++ log2)
    | (Ok exc, log2) =>
      (Ok {| _include_rules := inc;
             _exclude_rules := exc;
             _always_yield := negb (bool_decide (is_Some inc)) && negb (bool_decide (is_Some exc));
             _include_only := bool_decide (is_Some inc) && negb (bool_decide (is_Some exc));
             _exclude_only := bool_decide (is_Some exc) && negb (bool_decide (is_Some inc));
             _is_included_matched := false;
             _is_excluded_matched := false |},
       log1 ++ log2)
    end
  end.

Definition _is_included (self : IncludeExcludeFilter) (message : string)
  : result bool * IncludeExcludeFilter * list call :=
  match _include_rules self with
  | None => (Raise AssertionError, self, [])
  | Some rules =>
    let self := set_is_included_matched false self in
    let line := encode_utf8 message in
    let '(matched, r) :=
        scan (hyperscan_db rules) line on_match (_is_included_matched self) in
    let self := set_is_included_matched matched self in
    match r with
    | Raise _ => (Ok true, self, [Scan (hyperscan_db rules) line])
    | Ok _ =>
      (Ok (if _is_included_matched self then true else false),
       self, [Scan (hyperscan_db rules) line])
    end
  end.

Definition _is_excluded (self : IncludeExcludeFilter) (message : string)
  : result bool * IncludeExcludeFilter * list call :=
  match _exclude_rules self with
  | None => (Raise AssertionError, self, [])
  | Some rules =>
    let self := set_is_excluded_matched false self in
    let line := encode_utf8 message in
    let '(matched, r) :=
        scan (hyperscan_db rules) line on_match (_is_excluded_matched self) in
    let self := set_is_excluded_matched matched self in
    match r with
    | Raise _ => (Ok true, self, [Scan (hyperscan_db rules) line])
    | Ok _ =>
      (Ok (if _is_excluded_matched self then true else false),
       self, [Scan (hyperscan_db rules) line])
    end
  end.

(** [filter] returns True if the event is included or not excluded *)
Definition filter (self : IncludeExcludeFilter) (message : string)
  : result bool * IncludeExcludeFilter * list call :=
  if _always_yield self then (Ok true, self, [])
  else if _include_only self then _is_included self message
  else if _exclude_only self then
    match _is_excluded self message with
    | (Ok b, self, log) => (Ok (negb b), self, log)
    | (Raise e, self, log) => (Raise e, self, log)
    end
  else
    match _is_excluded self message with
    | (Ok true, self, log) => (Ok false, self, log)
    | (Ok false, self, log) =>
      match _is_included self message with
      | (r, self, log') => (r, self, log ++ log')
      end
    | (Raise e, self, log) => (Raise e, self, log)
    end.

(** The value [filter] returns, for statements that do not look at
    the object or the engine log. *)
Definition filter_value (self : IncludeExcludeFilter) (message : string) : result bool :=
  fst (fst (filter self message)).

Definition filter_calls (self : IncludeExcludeFilter) (message : string) : list call :=
  snd (filter self message).

(** Some pattern of the list matches the message (what a scan of the
    compiled list can report). *)
Definition any_pattern_matches (ps : list string) (message : string) : bool :=
  existsb (fun p => matches (encode_utf8 p) HS_FLAG_DOTALL (encode_utf8 message)) ps.

(** The scan of [message] against the compiled list raises. *)
Definition scan_raises (ps : list string) (message : string) : bool :=
  let db := hyperscan_patterns 0 ps in
  let line := encode_utf8 message in
  scan_fails db line (snd (deliver db line on_match false)).

(** The scan raised although none of its patterns matched. *)
Definition spurious_error (ps : list string) (message : string) : bool :=
  scan_raises ps message && negb (any_pattern_matches ps message).

(** A scan, as the filter observes it: it raised or reported a match. *)
Definition scan_hit (ps : list string) (message : string) : bool :=
  scan_raises ps message || any_pattern_matches ps message.

Definition scan_call (ps : list string) (message : string) : call :=
  Scan (hyperscan_patterns 0 ps) (encode_utf8 message).

End WithEngine.

(** A rule set counts as configured when it is a non-empty list. *)
Definition configured (ps : option (list string)) : bool :=
  match ps with
  | Some (_ :: _) => true
  | _ => false
  end.

(** The rule object [__init__] stores for a pattern list. *)
Definition rule_of (ps : option (list string)) : option IncludeExcludeRule :=
  if configured ps
  then Some {| patterns := default [] ps;
               hyperscan_db := hyperscan_patterns 0 (default [] ps) |}
  else None.

Definition nonempty_call (c : call) : bool :=
  match c with
  | Compile [] | Scan [] _ => false
  | _ => true
  end.

(** An engine for literal expressions: an expression without
    metacharacters matches exactly when it occurs in the line.  It
    compiles everything and never raises. *)
Fixpoint starts_with (p l : bytes) : bool :=
  match p, l with
  | [], _ => true
  | _ :: _, [] => false
  | a :: p', b :: l' => Byte.eqb a b && starts_with p' l'
  end.

Fixpoint occurs_in (p l : bytes) : bool :=
  starts_with p l || match l with [] => false | _ :: l' => occurs_in p l' end.

Definition literal_engine : Engine :=
  {| compiles := fun _ => true;
     matches := fun e _ line => occurs_in e line;
     scan_fails := fun _ _ _ => false |}.

(** The same engine in a release where a scan halted by its handler
    surfaces as [hyperscan.error]. *)
Definition halting_engine : Engine :=
  {| compiles := fun _ => true;
     matches := fun e _ line => occurs_in e line;
     scan_fails := fun _ _ halted => halted |}.

(** An engine whose scans always fail at run time. *)
Definition broken_engine : Engine :=
  {| compiles := fun _ => true;
     matches := fun e _ line => occurs_in e line;
     scan_fails := fun _ _ _ => true |}.

(** [IncludeExcludeRule.__eq__]; [other] is whatever stands on the
    other side of [==], [None] when that side has no rule: the assert
    accepts a rule only. *)
Definition IncludeExcludeRule_eq (self : IncludeExcludeRule)
           (other : option IncludeExcludeRule) : result bool :=
  match other with
  | None => Raise AssertionError
  | Some o => Ok (bool_decide (patterns self = patterns o))
  end.

(** [a == b] on two optional rules.  [None == None] is True; as soon as
    one side is a rule its [__eq__] is called with the other side
    (directly, or reflected once [None.__eq__] has answered
    [NotImplemented]). *)
Definition optional_rule_eq (a b : option IncludeExcludeRule) : result bool :=
  match a, b with
  | None, None => Ok true
  | Some r, _ => IncludeExcludeRule_eq r b
  | None, Some r => IncludeExcludeRule_eq r None
  end.

(** [IncludeExcludeFilter.__eq__]: [include == include and exclude ==
    exclude], the second comparison only when the first is True. *)
Definition IncludeExcludeFilter_eq (self other : IncludeExcludeFilter) : result bool :=
  match optional_rule_eq (_include_rules self) (_include_rules other) with
  | Raise e => Raise e
  | Ok false => Ok false
  | Ok true => optional_rule_eq (_exclude_rules self) (_exclude_rules other)
  end.

(** What of a filter object decides the outcome of [filter]: all of it
    but the two match flags. *)
Definition same_configuration (a b : IncludeExcludeFilter) : Prop :=
  _include_rules a = _include_rules b /\ _exclude_rules a = _exclude_rules b
  /\ _always_yield a = _always_yield b /\ _include_only a = _include_only b
  /\ _exclude_only a = _exclude_only b.

End include_exlude.

(** Building a filter and filtering one message, for the cases of
    [tests/share/test_include_exclude.py]; [None] stands for an
    exception. *)
Definition test_filter (engine : hyperscan.Engine)
           (inc exc : option (list string)) (message : string) : option bool :=
  match @include_exlude.IncludeExcludeFilter_init engine inc exc with
  | (Ok f, _) =>
    match @include_exlude.filter_value engine f message with
    | Ok b => Some b
    | Raise _ => None
    end
  | (Raise _, _) => None
  end.

(** ** Loaded YAML documents and Python's operations on them

    [parse_config] works on what [yaml.safe_load] returns.  Mappings are
    association lists in document order, a key bound once; keys are
    strings.  Numbers stand for floats too: neither can be searched or
    indexed, and neither is a [str]. *)
Module yaml.

Inductive value : Type :=
| Null
| Bool (b : bool)
| Number (z : Z)
| Str (s : string)
| List (l : list value)
| Dict (d : list (string * value)).

Fixpoint lookup (d : list (string * value)) (key : string) : option value :=
  match d with
  | [] => None
  | (k, v) :: rest => if String.eqb k key then Some v else lookup rest key
  end.

Definition is_str (v : value) : bool := match v with Str _ => true | _ => false end.
Definition is_list (v : value) : bool := match v with List _ => true | _ => false end.
Definition is_dict (v : value) : bool := match v with Dict _ => true | _ => false end.

(** [v == key] for a string [key] *)
Definition equals_str (key : string) (v : value) : bool :=
  match v with Str s => String.eqb s key | _ => false end.

End yaml.

(** Exceptions beyond those of [exn], and results that may carry them. *)
Module py.

Inductive error : Type :=
| Builtin (e : exn)
| TypeError
| KeyError (key : string).

Inductive outcome (A : Type) : Type :=
| Return (a : A)
| Throw (e : error).
Arguments Return {A} a.
Arguments Throw {A} e.

Definition bind {A B} (m : outcome A) (k : A -> outcome B) : outcome B :=
  match m with
  | Return a => k a
  | Throw e => Throw e
  end.

Definition lift {A} (r : result A) : outcome A :=
  match r with
  | Ok a => Return a
  | Raise e => Throw (Builtin e)
  end.

(** [key in v]: membership in a mapping's keys, substring of a string,
    element of a list; anything else is not iterable. *)
Definition contains (key : string) (v : yaml.value) : outcome bool :=
  match v with
  | yaml.Dict d => Return (bool_decide (is_Some (yaml.lookup d key)))
  | yaml.Str s => Return (include_exlude.occurs_in (encode_utf8 key) (encode_utf8 s))
  | yaml.List l => Return (existsb (yaml.equals_str key) l)
  | _ => Throw TypeError
  end.

(** [v[key]] for a string [key]: only a mapping can be indexed by it. *)
Definition getitem (v : yaml.value) (key : string) : outcome yaml.value :=
  match v with
  | yaml.Dict d =>
    match yaml.lookup d key with
    | Some x => Return x
    | None => Throw (KeyError key)
    end
  | _ => Throw TypeError
  end.

(** [if key not in v or not isinstance(v[key], T): raise ValueError(msg)],
    then [v[key]] *)
Definition required (v : yaml.value) (key : string) (is_T : yaml.value -> bool)
           (msg : string) : outcome yaml.value :=
  bind (contains key v) (fun present =>
  if negb present then Throw (Builtin (ValueError msg))
  else bind (getitem v key) (fun x =>
       if is_T x then Return x else Throw (Builtin (ValueError msg)))).

(** The call returned, or raised a ValueError, an AssertionError or a
    TypeError. *)
Definition expected {A} (m : outcome A) : Prop :=
  match m with
  | Return _ => True
  | Throw (Builtin (ValueError _)) => True
  | Throw (Builtin AssertionError) => True
  | Throw TypeError => True
  | Throw _ => False
  end.

End py.

(** ** share/config.py *)
Module config.

Definition _available_input_types : list string := ["sqs"%string].
Definition _available_output_types : list string := ["elasticsearch"%string].

(** [ElasticSearchOutput], by its settings. *)
Record Output : Type := {
  output_type : string;
  elasticsearch_url : string;
  cloud_id : string;
  username : string;
  password : string;
  api_key : string;
  dataset : string;
  namespace : string
}.

Record Input : Type := {
  input_type : string;
  input_id : string;
  _outputs : gmap string Output
}.

(** [Input.__init__]; the [type] setter refuses unknown types. *)
Definition Input_init (type_ id_ : string) : result Input :=
  if bool_decide (type_ ∈ _available_input_types)
  then Ok {| input_type := type_; input_id := id_; _outputs := ∅ |}
  else Raise (ValueError "Input type must be one of sqs").

Definition get_output_by_type (self : Input) (ty : string) : option Output :=
  _outputs self !! ty.

Record Config : Type := {
  _inputs : gmap string (gmap string Input)
}.

Definition Config_init : Config := {| _inputs := ∅ |}.

Definition get_input_by_type_and_id (self : Config) (type_ id_ : string) : option Input :=
  match _inputs self !! type_ with
  | None => None
  | Some by_id => by_id !! id_
  end.

Definition add_input (self : Config) (new_input : Input) : result Config :=
  match _inputs self !! input_type new_input with
  | None =>
    Ok {| _inputs := <[input_type new_input := {[input_id new_input := new_input]}]> (_inputs self) |}
  | Some by_id =>
    match by_id !! input_id new_input with
    | Some _ =>
      Raise (ValueError ("duplicated input " +:+ input_type new_input +:+ "/"
                         +:+ input_id new_input))
    | None =>
      Ok {| _inputs := <[input_type new_input := <[input_id new_input := new_input]> by_id]> (_inputs self) |}
    end
  end.

(** *** Outputs *)

Definition nonempty (s : string) : bool :=
  match s with EmptyString => false | String _ _ => true end.

(** [ElasticSearchOutput._kwargs] *)
Definition _kwargs : list string :=
  ["elasticsearch_url"; "cloud_id"; "username"; "password"; "api_key"; "dataset";
   "namespace"]%string.

(** The attributes as [ElasticSearchOutput.__init__] first sets them. *)
Definition blank_output : Output :=
  {| output_type := ""; elasticsearch_url := ""; cloud_id := ""; username := "";
     password := ""; api_key := ""; dataset := ""; namespace := "" |}.

Definition set_output_type (v : string) (o : Output) : Output :=
  {| output_type := v; elasticsearch_url := elasticsearch_url o; cloud_id := cloud_id o;
     username := username o; password := password o; api_key := api_key o;
     dataset := dataset o; namespace := namespace o |}.
Definition set_elasticsearch_url (v : string) (o : Output) : Output :=
  {| output_type := output_type o; elasticsearch_url := v; cloud_id := cloud_id o;
     username := username o; password := password o; api_key := api_key o;
     dataset := dataset o; namespace := namespace o |}.
Definition set_cloud_id (v : string) (o : Output) : Output :=
  {| output_type := output_type o; elasticsearch_url := elasticsearch_url o; cloud_id := v;
     username := username o; password := password o; api_key := api_key o;
     dataset := dataset o; namespace := namespace o |}.
Definition set_username (v : string) (o : Output) : Output :=
  {| output_type := output_type o; elasticsearch_url := elasticsearch_url o;
     cloud_id := cloud_id o; username := v; password := password o; api_key := api_key o;
     dataset := dataset o; namespace := namespace o |}.
Definition set_password (v : string) (o : Output) : Output :=
  {| output_type := output_type o; elasticsearch_url := elasticsearch_url o;
     cloud_id := cloud_id o; username := username o; password := v; api_key := api_key o;
     dataset := dataset o; namespace := namespace o |}.
Definition set_api_key (v : string) (o : Output) : Output :=
  {| output_type := output_type o; elasticsearch_url := elasticsearch_url o;
     cloud_id := cloud_id o; username := username o; password := password o; api_key := v;
     dataset := dataset o; namespace := namespace o |}.
Definition set_dataset (v : string) (o : Output) : Output :=
  {| output_type := output_type o; elasticsearch_url := elasticsearch_url o;
     cloud_id := cloud_id o; username := username o; password := password o;
     api_key := api_key o; dataset := v; namespace := namespace o |}.
Definition set_namespace (v : string) (o : Output) : Output :=
  {| output_type := output_type o; elasticsearch_url := elasticsearch_url o;
     cloud_id := cloud_id o; username := username o; password := password o;
     api_key := api_key o; dataset := dataset o; namespace := v |}.

(** [self.__setattr__(x, value[x])] for a name of [_kwargs]: each is a
    property whose setter accepts a [str] only. *)
Definition setattr (o : Output) (x : string) (v : yaml.value) : py.outcome Output :=
  match v with
  | yaml.Str s =>
    py.Return
      (if String.eqb x "elasticsearch_url" then set_elasticsearch_url s o
       else if String.eqb x "cloud_id" then set_cloud_id s o
       else if String.eqb x "username" then set_username s o
       else if String.eqb x "password" then set_password s o
       else if String.eqb x "api_key" then set_api_key s o
       else if String.eqb x "dataset" then set_dataset s o
       else if String.eqb x "namespace" then set_namespace s o
       else o)
  | _ => py.Throw (py.Builtin (ValueError ("Elasticsearch Output " +:+ x +:+ " must be of type str")))
  end.

(** The loop [for x in value.keys(): if x in self._kwargs: ...] *)
Fixpoint set_kwargs (keys : list string) (value : list (string * yaml.value)) (o : Output)
  : py.outcome Output :=
  match keys with
  | [] => py.Return o
  | x :: rest =>
    if existsb (String.eqb x) _kwargs then
      match yaml.lookup value x with
      | Some v => py.bind (setattr o x v) (set_kwargs rest value)
      | None => py.Throw (py.KeyError x)
      end
    else set_kwargs rest value o
  end.

(** The checks and defaults that follow the loop in the [kwargs] setter
    (the warnings it logs are left out). *)
Definition check_kwargs (o : Output) : py.outcome Output :=
  if negb (nonempty (cloud_id o)) && negb (nonempty (elasticsearch_url o)) then
    py.Throw (py.Builtin (ValueError "Elasticsearch Output elasticsearch_url or cloud_id must be set"))
  else
    let o := if nonempty (cloud_id o) && nonempty (elasticsearch_url o)
             then set_elasticsearch_url "" o else o in
    if negb (nonempty (username o)) && negb (nonempty (api_key o)) then
      py.Throw (py.Builtin (ValueError "Elasticsearch Output username and password or api_key must be set"))
    else
      let o := if nonempty (username o) && nonempty (api_key o)
               then set_password "" (set_username "" o) else o in
      if nonempty (username o) && negb (nonempty (password o)) then
        py.Throw (py.Builtin (ValueError "Elasticsearch Output password must be set when using username"))
      else
        let o := if negb (nonempty (dataset o)) then set_dataset "generic" o else o in
        let o := if negb (nonempty (namespace o)) then set_namespace "default" o else o in
        py.Return o.

(** [ElasticSearchOutput.__init__] *)
Definition ElasticSearchOutput_init (type_ : string) (kwargs : list (string * yaml.value))
  : py.outcome Output :=
  if negb (String.eqb type_ "elasticsearch") then
    py.Throw (py.Builtin (ValueError "output_type for ElasticSearchOutput must be elasticsearch"))
  else
    py.bind (set_kwargs (List.map fst kwargs) kwargs (set_output_type type_ blank_output))
            check_kwargs.

(** [self.__getattribute__(k)] for a name of [_kwargs] *)
Definition getattr (o : Output) (k : string) : string :=
  if String.eqb k "elasticsearch_url" then elasticsearch_url o
  else if String.eqb k "cloud_id" then cloud_id o
  else if String.eqb k "username" then username o
  else if String.eqb k "password" then password o
  else if String.eqb k "api_key" then api_key o
  else if String.eqb k "dataset" then dataset o
  else if String.eqb k "namespace" then namespace o
  else "".

(** The [kwargs] getter: the settings that are not empty, in the order
    of [_kwargs]. *)
Definition kwargs_of (o : Output) : list (string * yaml.value) :=
  List.flat_map (fun k => let v := getattr o k in
                          if nonempty v then [(k, yaml.Str v)] else []) _kwargs.

(** What a mapping gives for a setting: its string, or nothing. *)
Definition given (kwargs : list (string * yaml.value)) (k : string) : string :=
  match yaml.lookup kwargs k with
  | Some (yaml.Str s) => s
  | _ => ""
  end.

(** The attributes once the loop of the [kwargs] setter has run over a
    mapping, before its checks. *)
Definition loaded (kwargs : list (string * yaml.value)) : Output :=
  {| output_type := "elasticsearch";
     elasticsearch_url := given kwargs "elasticsearch_url";
     cloud_id := given kwargs "cloud_id";
     username := given kwargs "username";
     password := given kwargs "password";
     api_key := given kwargs "api_key";
     dataset := given kwargs "dataset";
     namespace := given kwargs "namespace" |}.

(** *** Inputs and their outputs *)

Definition set_outputs (outs : gmap string Output) (self : Input) : Input :=
  {| input_type := input_type self; input_id := input_id self; _outputs := outs |}.

(** [Input.add_output] *)
Definition add_output (self : Input) (type_ : string) (output_kwargs : yaml.value)
  : py.outcome Input :=
  match output_kwargs with
  | yaml.Dict kwargs =>
    if bool_decide (is_Some (_outputs self !! type_)) then
      py.Throw (py.Builtin (ValueError ("Duplicated Output " +:+ type_)))
    else if String.eqb type_ "elasticsearch" then
      py.bind (ElasticSearchOutput_init type_ kwargs) (fun output =>
      py.Return (set_outputs (<[output_type output := output]> (_outputs self)) self))
    else py.Throw (py.Builtin AssertionError)
  | _ => py.Throw (py.Builtin (ValueError "Output arguments must be of type dict[str, Any]"))
  end.

(** [Input.delete_output_by_type]: [del self._outputs[output_type]] *)
Definition delete_output_by_type (self : Input) (type_ : string) : py.outcome Input :=
  match _outputs self !! type_ with
  | Some _ => py.Return (set_outputs (delete type_ (_outputs self)) self)
  | None => py.Throw (py.KeyError type_)
  end.

(** [Input.get_output_types]: the keys of [_outputs] (a map keeps no
    insertion order; an input never holds more than one output). *)
Definition get_output_types (self : Input) : list string :=
  (map_to_list (_outputs self)).*1.

(** *** parse_config, on the loaded document *)

(** The loop over [input_config["outputs"]] *)
Fixpoint parse_outputs (outputs : list yaml.value) (current_input : Input) : py.outcome Input :=
  match outputs with
  | [] => py.Return current_input
  | output_config :: rest =>
    py.bind (py.required output_config "type" yaml.is_str
                         "Must be provided str type for output") (fun ty =>
    py.bind (py.required output_config "args" yaml.is_dict
                         "Must be provided dict args for output") (fun args =>
    match ty with
    | yaml.Str type_ => py.bind (add_output current_input type_ args) (parse_outputs rest)
    | _ => py.Throw py.TypeError
    end))
  end.

(** The body of the loop over [yaml_config["inputs"]], up to the call of
    [add_input] *)
Definition parse_input (input_config : yaml.value) : py.outcome Input :=
  py.bind (py.required input_config "type" yaml.is_str
                       "Must be provided str type for input") (fun ty =>
  py.bind (py.required input_config "id" yaml.is_str
                       "Must be provided str id for input") (fun id_ =>
  match ty, id_ with
  | yaml.Str type_, yaml.Str i =>
    py.bind (py.lift (Input_init type_ i)) (fun current_input =>
    py.bind (py.required input_config "outputs" yaml.is_list
                         "No valid outputs for input") (fun outputs =>
    match outputs with
    | yaml.List l => parse_outputs l current_input
    | _ => py.Throw py.TypeError
    end))
  | _, _ => py.Throw py.TypeError
  end)).

Fixpoint parse_inputs (inputs : list yaml.value) (conf : Config) : py.outcome Config :=
  match inputs with
  | [] => py.Return conf
  | input_config :: rest =>
    py.bind (parse_input input_config) (fun current_input =>
    py.bind (py.lift (add_input conf current_input)) (parse_inputs rest))
  end.

(** [parse_config], from the value [yaml.safe_load] returned *)
Definition parse_config (yaml_config : yaml.value) : py.outcome Config :=
  match yaml_config with
  | yaml.Dict top =>
    match yaml.lookup top "inputs" with
    | Some (yaml.List inputs) => parse_inputs inputs Config_init
    | _ => py.Throw (py.Builtin (ValueError "No inputs provided"))
    end
  | _ => py.Throw (py.Builtin AssertionError)
  end.

(** A document for examples: one SQS input with an Elasticsearch output. *)
Definition example_args : list (string * yaml.value) :=
  [("elasticsearch_url", yaml.Str "https://es.example:9200");
   ("cloud_id", yaml.Str "deployment:abc");
   ("username", yaml.Str "elastic");
   ("password", yaml.Str "secret");
   ("api_key", yaml.Str "key")]%string.

Definition example_input_config : yaml.value :=
  yaml.Dict
    [("type", yaml.Str "sqs");
     ("id", yaml.Str "arn:aws:sqs:eu-central-1:123456789:queue");
     ("outputs",
      yaml.List
        [yaml.Dict [("type", yaml.Str "elasticsearch");
                    ("args", yaml.Dict example_args)]])]%string.

Definition example_document : yaml.value :=
  yaml.Dict [("inputs", yaml.List [example_input_config])]%string.

Definition example_input : Input :=
  {| input_type := "sqs"; input_id := "arn:aws:sqs:eu-central-1:123456789:queue";
     _outputs := ∅ |}.

End config.

(** ** handlers/aws/sqs_trigger.py *)
Module sqs_trigger.

(** One entry of [body["Records"]], with the keys the handler reads.
    The two cursor keys are optional ([... if key in s3_record else 0]). *)
Record s3_record : Type := {
  awsRegion : string;
  bucket_arn : string;
  object_key : string;
  last_ending_offset : option Z;
  last_beginning_offset : option Z
}.

(** One entry of [event["Records"]]; [body] is the decoded JSON body. *)
Record sqs_record : Type := {
  eventSourceARN : string;
  body : list s3_record
}.

(** The storage collaborator: [utils.get_bucket_name_from_arn] and the
    stream of [(log_event, beginning_offset, ending_offset)] that
    [StorageFactory.create("s3", bucket_name, object_key).get_by_lines
    (range_start, last_beginning_offset)] produces. *)
Class Storage : Type := {
  get_bucket_name_from_arn : string -> string;
  get_by_lines : string -> string -> Z -> Z -> list (bytes * Z * Z)
}.

(** The fields the handler writes into its copy of [_default_event]
    (module [event], not among the sources), as they stand at the
    moment the event is yielded.  The wall-clock ["@timestamp"] is left
    out. *)
Record es_event : Type := {
  fields_message : string;
  fields_log_offset : Z;
  fields_log_file_path : string;
  fields_aws_s3_bucket_name : string;
  fields_aws_s3_bucket_arn : string;
  fields_aws_s3_object_key : string;
  fields_cloud_region : string
}.

(** What the generator does that its caller can observe. *)
Inductive action : Type :=
| StorageRead (bucket_name object_key : string) (range_start last_beginning_offset : Z)
| Yield (ev : es_event) (beginning_offset ending_offset : Z) (sqs_record_n s3_record_n : nat).

(** A generator run: the actions in order, then how it ended. *)
Definition gen (A : Type) : Type := list action * result A.

Definition gret {A} (a : A) : gen A := ([], Ok a).
Definition raise {A} (e : exn) : gen A := ([], Raise e).
Definition emit (a : action) : gen unit := ([a], Ok tt).
Definition gbind {A B} (m : gen A) (k : A -> gen B) : gen B :=
  match m with
  | (t, Ok a) => let '(t', r) := k a in (t ++ t', r)
  | (t, Raise e) => (t, Raise e)
  end.

Definition gseq {A B} (m : gen A) (k : gen B) : gen B := gbind m (fun _ => k).
Infix ">>>" := gseq (at level 60, right associativity).

Section Handler.
Context `{Storage}.

(** The assignments to [es_event] before the [yield].  The path is
    ["https://{0}.s3.{1}.amazonaws.com/{1}".format(bucket_name, object_key)],
    as the source has it. *)
Definition make_event (aws_region bucket_name arn key message : string)
           (beginning_offset : Z) : es_event :=
  {| fields_message := message;
     fields_log_offset := beginning_offset;
     fields_log_file_path :=
       ("https://" +:+ bucket_name +:+ ".s3." +:+ key +:+ ".amazonaws.com/" +:+ key)%string;
     fields_aws_s3_bucket_name := bucket_name;
     fields_aws_s3_bucket_arn := arn;
     fields_aws_s3_object_key := key;
     fields_cloud_region := aws_region |}.

(** The loop over [storage.get_by_lines(...)]. *)
Fixpoint for_log_events (aws_region bucket_name arn key : string)
         (last_ending : Z) (sqs_record_n s3_record_n : nat)
         (lines : list (bytes * Z * Z)) : gen unit :=
  match lines with
  | [] => gret tt
  | (log_event, beginning_offset, ending_offset) :: rest =>
    if ending_offset <? last_ending then
      for_log_events aws_region bucket_name arn key last_ending
                     sqs_record_n s3_record_n rest
    else
      match decode_utf8 log_event with
      | None => raise UnicodeDecodeError
      | Some message =>
        emit (Yield (make_event aws_region bucket_name arn key message beginning_offset)
                    beginning_offset ending_offset sqs_record_n s3_record_n) >>>
        for_log_events aws_region bucket_name arn key last_ending
                       sqs_record_n s3_record_n rest
      end
  end.

(** The body of the loop over [body["Records"]]. *)
Definition handle_s3_record (sqs_record_n s3_record_n : nat) (r : s3_record) : gen unit :=
  let aws_region := awsRegion r in
  let arn := bucket_arn r in
  let key := object_key r in
  let last_ending := default 0 (last_ending_offset r) in
  let last_beginning := default 0 (last_beginning_offset r) in
  if (String.length arn =? 0)%nat || (String.length key =? 0)%nat then
    raise (Exception "Cannot find bucket_arn or object_key for s3")
  else
    let bucket_name := get_bucket_name_from_arn arn in
    emit (StorageRead bucket_name key last_ending last_beginning) >>>
    for_log_events aws_region bucket_name arn key last_ending
                   sqs_record_n s3_record_n
                   (get_by_lines bucket_name key last_ending last_beginning).

Fixpoint for_s3_records (sqs_record_n s3_record_n : nat) (rs : list s3_record) : gen unit :=
  match rs with
  | [] => gret tt
  | r :: rest =>
    handle_s3_record sqs_record_n s3_record_n r >>>
    for_s3_records sqs_record_n (S s3_record_n) rest
  end.

(** The loop over [event["Records"]]; a record without a configured
    input ends the generator ([return None]). *)
Fixpoint for_sqs_records (cfg : config.Config) (sqs_record_n : nat)
         (rs : list sqs_record) : gen unit :=
  match rs with
  | [] => gret tt
  | r :: rest =>
    match config.get_input_by_type_and_id cfg "sqs" (eventSourceARN r) with
    | None => gret tt
    | Some _ =>
      for_s3_records sqs_record_n 0 (body r) >>>
      for_sqs_records cfg (S sqs_record_n) rest
    end
  end.

Definition _handle_sqs_event (cfg : config.Config) (event : list sqs_record) : gen unit :=
  for_sqs_records cfg 0 event.

End Handler.

Definition payload_of (l : bytes * Z * Z) : bytes := fst (fst l).
Definition beginning_of (l : bytes * Z * Z) : Z := snd (fst l).
Definition ending_of (l : bytes * Z * Z) : Z := snd l.

(** The action by which a line of the stream is emitted. *)
Definition yield_of (aws_region bucket_name arn key : string)
           (sqs_record_n s3_record_n : nat) (l : bytes * Z * Z) : action :=
  Yield (make_event aws_region bucket_name arn key
                    (string_of_list_byte (payload_of l)) (beginning_of l))
        (beginning_of l) (ending_of l) sqs_record_n s3_record_n.

(** The action is not the yield of an event that ends before the cursor. *)
Definition not_before (cursor : Z) (a : action) : Prop :=
  match a with
  | Yield _ _ ending_offset _ _ => cursor <= ending_offset
  | StorageRead _ _ _ _ => True
  end.

(** Modelled from the spec: [get_by_lines(range_start,
    last_beginning_offset)] is not among the sources ([storage/s3.py]
    there is an earlier version, without arguments or offsets).  By the
    data model a line ends no earlier than it begins, and the lines of
    one pass are ordered and do not overlap: each begins where the
    previous one ended, or later. *)
Fixpoint ordered_from (lo : Z) (lines : list (bytes * Z * Z)) : bool :=
  match lines with
  | [] => true
  | l :: rest =>
    (lo <=? beginning_of l) && (beginning_of l <=? ending_of l)
    && ordered_from (ending_of l) rest
  end.

Definition in_stream_order (lines : list (bytes * Z * Z)) : bool :=
  match lines with
  | [] => true
  | l :: _ => ordered_from (beginning_of l) lines
  end.

(** A storage for examples: the bucket name is what follows the last
    colon of the ARN, and every read replays the same three lines from
    the start of the object, whatever the requested range. *)
Fixpoint after_last_colon (s : string) : string :=
  match s with
  | EmptyString => EmptyString
  | String c s' =>
    if existsb (Ascii.eqb ":"%char) (list_ascii_of_string s')
    then after_last_colon s' else
      if Ascii.eqb c ":"%char then s' else s
  end.

Definition example_lines : list (bytes * Z * Z) :=
  [(encode_utf8 "first", 0, 6); (encode_utf8 "second", 6, 13); (encode_utf8 "third", 13, 19)].

Definition example_storage : Storage :=
  {| get_bucket_name_from_arn := after_last_colon;
     get_by_lines := fun _ _ _ _ => example_lines |}.

Definition example_input : config.Input :=
  {| config.input_type := "sqs";
     config.input_id := "arn:aws:sqs:eu-central-1:123456789:queue";
     config._outputs := ∅ |}.

Definition example_config : config.Config :=
  match config.add_input config.Config_init example_input with
  | Ok cfg => cfg
  | Raise _ => config.Config_init
  end.

Definition example_known_record : sqs_record :=
  {| eventSourceARN := "arn:aws:sqs:eu-central-1:123456789:queue";
     body := [{| awsRegion := "eu-central-1";
                 bucket_arn := "arn:aws:s3:::logs";
                 object_key := "app/2021.log";
                 last_ending_offset := None;
                 last_beginning_offset := None |}] |}.

Definition example_unknown_record : sqs_record :=
  {| eventSourceARN := "arn:aws:sqs:eu-central-1:123456789:other";
     body := body example_known_record |}.

Definition example_s3_record (cursor : option Z) : s3_record :=
  {| awsRegion := "eu-central-1";
     bucket_arn := "arn:aws:s3:::logs";
     object_key := "app/2021.log";
     last_ending_offset := cursor;
     last_beginning_offset := None |}.

(** The lines of a stream that the loop does not skip. *)
Definition kept (cursor : Z) (lines : list (bytes * Z * Z)) : list (bytes * Z * Z) :=
  List.filter (fun l => negb (ending_of l <? cursor)) lines.

Definition decodable (l : bytes * Z * Z) : bool := utf8_well_formed (payload_of l).

(** The lines before the first one whose payload does not decode. *)
Fixpoint decodable_prefix (lines : list (bytes * Z * Z)) : list (bytes * Z * Z) :=
  match lines with
  | [] => []
  | l :: rest => if decodable l then l :: decodable_prefix rest else []
  end.

(** Every record of the list has a configured input of type "sqs". *)
Definition all_configured (cfg : config.Config) (rs : list sqs_record) : bool :=
  forallb (fun r => bool_decide
                      (is_Some (config.get_input_by_type_and_id cfg "sqs" (eventSourceARN r))))
          rs.

Definition is_storage_read (a : action) : bool :=
  match a with
  | StorageRead _ _ _ _ => true
  | Yield _ _ _ _ _ => false
  end.

(** The storage reads of a run, in order. *)
Definition storage_reads (t : list action) : list action := List.filter is_storage_read t.

Section Provenance.
Context `{Storage}.

(** The read that processing record [r] starts with. *)
Definition read_of (r : s3_record) : action :=
  StorageRead (get_bucket_name_from_arn (bucket_arn r)) (object_key r)
              (default 0 (last_ending_offset r)) (default 0 (last_beginning_offset r)).

(** The action is one that processing record [r], at these indices,
    performs: the read of its object from its cursor, or the yield of a
    line of the stream read, not ending before the cursor. *)
Definition from_record (sqs_record_n s3_record_n : nat) (r : s3_record) (a : action) : Prop :=
  let cursor := default 0 (last_ending_offset r) in
  let bucket_name := get_bucket_name_from_arn (bucket_arn r) in
  let lines := get_by_lines bucket_name (object_key r) cursor
                            (default 0 (last_beginning_offset r)) in
  a = StorageRead bucket_name (object_key r) cursor (default 0 (last_beginning_offset r))
  \/ exists l,
      In l lines /\ cursor <= ending_of l
      /\ a = yield_of (awsRegion r) bucket_name (bucket_arn r) (object_key r)
                      sqs_record_n s3_record_n l.

(** The action belongs to a record of the notification whose SQS record
    has a configured input, and carries that record's positions. *)
Definition from_notification (cfg : config.Config) (event : list sqs_record)
           (first_n : nat) (a : action) : Prop :=
  exists i sr j r,
    event !! i = Some sr
    /\ is_Some (config.get_input_by_type_and_id cfg "sqs" (eventSourceARN sr))
    /\ body sr !! j = Some r
    /\ from_record (first_n + i) j r a.

End Provenance.

End sqs_trigger.

(** ** shippers/es.py *)
Module es.

Import sqs_trigger.
Local Open Scope string_scope.
Local Open Scope Z_scope.

(** *** Decimal rendering of integers, as [str.format] does it *)

Definition digit_char (d : Z) : ascii := ascii_of_N (Z.to_N (48 + d)).

Fixpoint decimal_fuel (fuel : nat) (n : Z) : string :=
  match fuel with
  | O => ""
  | S f =>
    if n <? 10 then String (digit_char n) ""
    else decimal_fuel f (n / 10) +:+ String (digit_char (n mod 10)) ""
  end.

(** The decimal digits of a non-negative integer, without leading zeros. *)
Definition decimal (n : Z) : string :=
  decimal_fuel (S (Z.to_nat (Z.log2 n))) n.

Fixpoint zeros (k : nat) : string :=
  match k with
  | O => ""
  | S k' => String "0" (zeros k')
  end.

(** The format spec [012d]: sign-aware zero padding to a minimum width
    of 12; the sign, if any, comes first and counts towards the width. *)
Definition format_012d (n : Z) : string :=
  let digits := decimal (Z.abs n) in
  let sign := if n <? 0 then "-" else "" in
  sign +:+ zeros (12 - String.length sign - String.length digits)%nat +:+ digits.

(** [ElasticsearchShipper._s3_object_id] *)
Definition _s3_object_id (event_payload : es_event) : string :=
  let offset := fields_log_offset event_payload in
  let bucket_arn := fields_aws_s3_bucket_arn event_payload in
  let object_key := fields_aws_s3_object_key event_payload in
  let src := bucket_arn +:+ object_key in
  let hex_prefix := substring 0 10 (hashlib.sha256_hexdigest (encode_utf8 src)) in
  hex_prefix +:+ "-" +:+ format_012d offset.

(** *** The identifier as the specification words it *)

Definition zero_pad (s : string) (width : nat) : string :=
  zeros (width - String.length s)%nat +:+ s.

Definition spec_identifier (container_identity path : string) (beginning_offset : Z) : string :=
  substring 0 10 (hashlib.sha256_hexdigest (encode_utf8 (container_identity +:+ path)))
  +:+ "-" +:+ zero_pad (decimal beginning_offset) 12.

(** The [w] low-order decimal digits of [n], most significant first.
    It is what a number below [10 ^ w], zero-padded to width [w],
    looks like; the order proofs go through it. *)
Fixpoint fixed_width (w : nat) (n : Z) : string :=
  match w with
  | O => ""
  | S w' => fixed_width w' (n / 10) +:+ String (digit_char (n mod 10)) ""
  end.

(** *** The shipper *)

(** An event once [send] has enriched it and made it a bulk action. *)
Record bulk_action : Type := {
  payload : es_event;
  data_stream_type : string;
  data_stream_dataset : string;
  data_stream_namespace : string;
  event_dataset : string;
  event_original : string;
  tags : list string;
  _op_type : string;
  _index : string;
  _id : string
}.

(** The instance.  [own_bulk_actions] is the instance attribute
    [_bulk_actions], which exists only once [send] or [flush] has
    assigned it; until then lookups fall through to the class. *)
Record ElasticsearchShipper : Type := {
  _dataset : string;
  _namespace : string;
  _es_index : string;
  own_bulk_actions : option (list bulk_action)
}.

(** What outlives one method call: the class attributes (the list
    [_bulk_actions] is one object shared by every instance) and the
    bulk requests sent so far, oldest first. *)
Record store : Type := {
  class_bulk_actions : list bulk_action;
  _bulk_batch_size : Z;
  es_bulk_calls : list (list bulk_action)
}.

Definition initial_store : store :=
  {| class_bulk_actions := []; _bulk_batch_size := 10000; es_bulk_calls := [] |}.

Definition ElasticsearchShipper_init (dataset namespace : string) : ElasticsearchShipper :=
  {| _dataset := dataset;
     _namespace := namespace;
     _es_index := "logs-" +:+ dataset +:+ "-" +:+ namespace;
     own_bulk_actions := None |}.

(** [self._bulk_actions], read *)
Definition bulk_actions (w : store) (self : ElasticsearchShipper) : list bulk_action :=
  default (class_bulk_actions w) (own_bulk_actions self).

(** [self._bulk_actions.append(event)]: in place, on whichever list the
    attribute lookup finds *)
Definition append_bulk_action (a : bulk_action) (w : store) (self : ElasticsearchShipper)
  : store * ElasticsearchShipper :=
  match own_bulk_actions self with
  | Some l =>
    (w, {| _dataset := _dataset self; _namespace := _namespace self;
           _es_index := _es_index self; own_bulk_actions := Some (l ++ [a])%list |})
  | None =>
    ({| class_bulk_actions := (class_bulk_actions w ++ [a])%list;
        _bulk_batch_size := _bulk_batch_size w;
        es_bulk_calls := es_bulk_calls w |}, self)
  end.

(** [self._bulk_actions = []] *)
Definition reset_bulk_actions (self : ElasticsearchShipper) : ElasticsearchShipper :=
  {| _dataset := _dataset self; _namespace := _namespace self;
     _es_index := _es_index self; own_bulk_actions := Some [] |}.

(** [es_bulk(self._es_client, actions)] *)
Definition es_bulk (actions : list bulk_action) (w : store) : store :=
  {| class_bulk_actions := class_bulk_actions w;
     _bulk_batch_size := _bulk_batch_size w;
     es_bulk_calls := (es_bulk_calls w ++ [actions])%list |}.

(** [str.replace(".", "-")] *)
Fixpoint replace_dots (s : string) : string :=
  match s with
  | EmptyString => EmptyString
  | String c s' => String (if Ascii.eqb c "." then "-"%char else c) (replace_dots s')
  end.

(** [_enrich_event] followed by the three assignments of [send] *)
Definition make_action (self : ElasticsearchShipper) (event : es_event) : bulk_action :=
  {| payload := event;
     data_stream_type := "logs";
     data_stream_dataset := _dataset self;
     data_stream_namespace := _namespace self;
     event_dataset := _dataset self;
     event_original := fields_message event;
     tags := ["preserve_original_event"; "forwarded"; replace_dots (_dataset self)];
     _op_type := "create";
     _index := _es_index self;
     _id := _s3_object_id event |}.

Definition send (event : es_event) (w : store) (self : ElasticsearchShipper)
  : store * ElasticsearchShipper :=
  let '(w, self) := append_bulk_action (make_action self event) w self in
  if (Z.of_nat (length (bulk_actions w self)) <? _bulk_batch_size w)%Z then (w, self)
  else (es_bulk (bulk_actions w self) w, reset_bulk_actions self).

Definition flush (w : store) (self : ElasticsearchShipper)
  : store * ElasticsearchShipper :=
  let w := if (1 <? Z.of_nat (length (bulk_actions w self)))%Z
           then es_bulk (bulk_actions w self) w else w in
  (w, reset_bulk_actions self).

(** An event for examples: the line at [offset] of the object
    [app/2021.log] in the bucket [logs]. *)
Definition example_event (offset : Z) : es_event :=
  {| fields_message := "second";
     fields_log_offset := offset;
     fields_log_file_path := "https://logs.s3.app/2021.log.amazonaws.com/app/2021.log";
     fields_aws_s3_bucket_name := "logs";
     fields_aws_s3_bucket_arn := "arn:aws:s3:::logs";
     fields_aws_s3_object_key := "app/2021.log";
     fields_cloud_region := "eu-central-1" |}.

(** The caller's loop over the events of a run: [send] for each one, in
    order. *)
Fixpoint send_all (events : list es_event) (w : store) (self : ElasticsearchShipper)
  : store * ElasticsearchShipper :=
  match events with
  | [] => (w, self)
  | event :: rest =>
    let '(w', self') := send event w self in
    send_all rest w' self'
  end.

(** The documents all bulk requests made so far carry, in order. *)
Definition written (w : store) : list bulk_action := concat (es_bulk_calls w).

(** The value of a string of decimal digits read left to right, on top
    of [acc]; used to read an identifier's offset back. *)
Fixpoint digits_value (acc : Z) (s : string) : Z :=
  match s with
  | EmptyString => acc
  | String c s' => digits_value (10 * acc + (Z.of_N (N_of_ascii c) - 48)) s'
  end.

(** A decimal rendering read back as an integer: an optional leading
    minus sign, then digits. *)
Definition parse_offset (s : string) : Z :=
  match s with
  | String "-" rest => - digits_value 0 rest
  | _ => digits_value 0 s
  end.

(** Three events of one object, for examples. *)
Definition example_events : list es_event :=
  [example_event 0; example_event 6; example_event 13].

(** A store for examples, with a small batch size. *)
Definition example_store (batch_size : Z) : store :=
  {| class_bulk_actions := []; _bulk_batch_size := batch_size; es_bulk_calls := [] |}.

End es.

(** * Checks of the models against known values *)

Example sha256_abc :
  hashlib.sha256_hexdigest (encode_utf8 "abc")
  = "ba7816bf8f01cfea414140de5dae2223b00361a396177a9cb410ff61f20015ad"%string.
Proof. vm_compute. reflexivity. Qed.

(** The repository's test cases hold on the literal engine, and equally
    on an engine that reports a scan halted by [on_match] as
    [hyperscan.error]: there the error is how a match shows. *)
Example test_include_exclude :
  forall engine,
    engine = include_exlude.literal_engine \/ engine = include_exlude.halting_engine ->
    let _message := "a message"%string in
    test_filter engine None None _message = Some true /\
    test_filter engine None (Some ["message"%string]) _message = Some false /\
    test_filter engine None (Some ["not matching"%string]) _message = Some true /\
    test_filter engine (Some ["message"%string]) None _message = Some true /\
    test_filter engine (Some ["not matching"%string]) None _message = Some false /\
    test_filter engine (Some ["message"%string]) (Some ["message"%string]) _message = Some false /\
    test_filter engine (Some ["message"%string]) (Some ["not matching"%string]) _message = Some true /\
    test_filter engine (Some ["not matching"%string]) (Some ["not matching"%string]) _message = Some false.
Proof. intros engine [-> | ->]; vm_compute; repeat split. Qed.

(** On the halting engine the exclude scan of the test case "exclude
    rule match" raises; the test expects the message to be rejected. *)
Example exclude_match_raises_on_halting_engine :
  @include_exlude.scan_raises include_exlude.halting_engine ["message"%string] "a message" = true
  /\ test_filter include_exlude.halting_engine None (Some ["message"%string]) "a message"
     = Some false.
Proof. vm_compute. split; reflexivity. Qed.

(** * Properties of the include/exclude filter *)
Section FilterFacts.
Import hyperscan include_exlude.
Context `{Engine}.

Lemma deliver_on_match n ps message st :
  0 <= n ->
  deliver (hyperscan_patterns n ps) (encode_utf8 message) on_match st
  = (st || any_pattern_matches ps message, any_pattern_matches ps message).
Proof.
  revert n st. induction ps as [|p ps IH]; intros n st Hn; simpl.
  - now rewrite orb_false_r.
  - destruct (matches (encode_utf8 p) HS_FLAG_DOTALL (encode_utf8 message)); simpl.
    + unfold on_match. replace (0 <? n + 1) with true by (symmetry; apply Z.ltb_lt; lia).
      now rewrite orb_true_r.
    + apply IH. lia.
Qed.

Lemma scan_on_match ps message :
  scan (hyperscan_patterns 0 ps) (encode_utf8 message) on_match false
  = (any_pattern_matches ps message,
     if scan_raises ps message then Raise HyperscanError else Ok tt).
Proof.
  unfold scan, scan_raises. now rewrite deliver_on_match by lia.
Qed.

Lemma optional_rules_ok ps r :
  fst (optional_rules ps) = Ok r -> r = rule_of ps.
Proof.
  unfold optional_rules, rule_of, IncludeExcludeRule_init.
  destruct ps as [[|p l]|]; simpl; try congruence.
  destruct (compiles _); simpl; congruence.
Qed.

Lemma optional_rules_log ps :
  configured ps = false -> optional_rules ps = (Ok None, []).
Proof. destruct ps as [[|p l]|]; simpl; congruence. Qed.

Lemma is_Some_rule_of ps : bool_decide (is_Some (rule_of ps)) = configured ps.
Proof. unfold rule_of. destruct (configured ps); reflexivity. Qed.

(** What a successfully built filter looks like. *)
Lemma init_ok inc exc f :
  fst (IncludeExcludeFilter_init inc exc) = Ok f ->
  f = {| _include_rules := rule_of inc;
         _exclude_rules := rule_of exc;
         _always_yield := negb (configured inc) && negb (configured exc);
         _include_only := configured inc && negb (configured exc);
         _exclude_only := configured exc && negb (configured inc);
         _is_included_matched := false;
         _is_excluded_matched := false |}.
Proof.
  unfold IncludeExcludeFilter_init.
  destruct (optional_rules inc) as [[ri|e] l1] eqn:Hi; simpl; [|congruence].
  destruct (optional_rules exc) as [[re|e] l2] eqn:He; simpl; [|congruence].
  apply (f_equal fst) in Hi, He. simpl in Hi, He.
  apply optional_rules_ok in Hi, He. subst ri re.
  rewrite !is_Some_rule_of. congruence.
Qed.

Lemma is_included_run self ps message :
  _include_rules self = rule_of (Some ps) -> ps <> [] ->
  fst (fst (_is_included self message))
  = Ok (scan_raises ps message || any_pattern_matches ps message)
  /\ snd (_is_included self message)
     = [Scan (hyperscan_patterns 0 ps) (encode_utf8 message)].
Proof.
  intros Hr Hne. unfold _is_included. rewrite Hr.
  destruct ps as [|p l]; [congruence|].
  cbn [rule_of configured default from_option id hyperscan_db
       set_is_included_matched _is_included_matched].
  rewrite scan_on_match.
  destruct (scan_raises (p :: l) message); cbn [fst snd orb]; [easy|].
  now destruct (any_pattern_matches (p :: l) message).
Qed.

Lemma is_excluded_run self ps message :
  _exclude_rules self = rule_of (Some ps) -> ps <> [] ->
  fst (fst (_is_excluded self message))
  = Ok (scan_raises ps message || any_pattern_matches ps message)
  /\ snd (_is_excluded self message)
     = [Scan (hyperscan_patterns 0 ps) (encode_utf8 message)].
Proof.
  intros Hr Hne. unfold _is_excluded. rewrite Hr.
  destruct ps as [|p l]; [congruence|].
  cbn [rule_of configured default from_option id hyperscan_db
       set_is_excluded_matched _is_excluded_matched].
  rewrite scan_on_match.
  destruct (scan_raises (p :: l) message); cbn [fst snd orb]; [easy|].
  now destruct (any_pattern_matches (p :: l) message).
Qed.

Lemma is_excluded_keeps_include_rules self message :
  _include_rules (snd (fst (_is_excluded self message))) = _include_rules self.
Proof.
  unfold _is_excluded. destruct (_exclude_rules self) as [r|]; [|reflexivity].
  destruct (scan _ _ _ _) as [m [u|e]]; reflexivity.
Qed.

Ltac run_scan lem ps :=
  match goal with
  | |- context [?meth ?s ?m] =>
    match type of (meth s m) with
    | (result bool * IncludeExcludeFilter * list call)%type =>
      let E := fresh "E" in let L := fresh "L" in let K := fresh "K" in
      destruct (lem s ps m eq_refl ltac:(congruence)) as [E L];
      pose proof (is_excluded_keeps_include_rules s m) as K;
      destruct (meth s m) as [[? ?] ?]; cbn [fst snd] in E, L, K; subst
    end
  end.

(** The value and the engine calls of [filter] on a filter built from
    the two lists, in terms of what its scans do. *)
Lemma filter_run_built inc exc f message :
  fst (IncludeExcludeFilter_init inc exc) = Ok f ->
  (filter_value f message, filter_calls f message) =
  match configured inc, configured exc with
  | false, false => (Ok true, [])
  | true, false =>
    (Ok (scan_hit (default [] inc) message), [scan_call (default [] inc) message])
  | false, true =>
    (Ok (negb (scan_hit (default [] exc) message)), [scan_call (default [] exc) message])
  | true, true =>
    if scan_hit (default [] exc) message
    then (Ok false, [scan_call (default [] exc) message])
    else (Ok (scan_hit (default [] inc) message),
          [scan_call (default [] exc) message; scan_call (default [] inc) message])
  end.
Proof.
  intros Hf. apply init_ok in Hf. unfold filter_value, filter_calls, filter, scan_hit, scan_call.
  destruct inc as [[|pi li]|], exc as [[|pe le]|]; subst f;
    cbn [configured negb andb _always_yield _include_only _exclude_only
         default from_option id];
    try reflexivity.
  - run_scan is_excluded_run (pe :: le). reflexivity.
  - run_scan is_included_run (pi :: li). reflexivity.
  - run_scan is_excluded_run (pe :: le).
    destruct (scan_raises (pe :: le) message || any_pattern_matches (pe :: le) message);
      cbn [negb andb fst snd]; [reflexivity|].
    match goal with |- context [_is_included ?s message] =>
      destruct (is_included_run s (pi :: li) message K ltac:(congruence)) as [E L];
      destruct (_is_included s message) as [[? ?] ?] end.
    cbn [fst snd] in E, L. subst. reflexivity.
  - run_scan is_included_run (pi :: li). reflexivity.
  - run_scan is_excluded_run (pe :: le). reflexivity.
Qed.

Lemma filter_value_built inc exc f message :
  fst (IncludeExcludeFilter_init inc exc) = Ok f ->
  filter_value f message =
  Ok (match configured inc, configured exc with
      | false, false => true
      | true, false => scan_hit (default [] inc) message
      | false, true => negb (scan_hit (default [] exc) message)
      | true, true =>
        negb (scan_hit (default [] exc) message) && scan_hit (default [] inc) message
      end).
Proof.
  intros Hf. pose proof (filter_run_built inc exc f message Hf) as R.
  apply (f_equal fst) in R. cbn [fst] in R. rewrite R.
  destruct (configured inc), (configured exc); try reflexivity.
  now destruct (scan_hit (default [] exc) message).
Qed.

Lemma filter_calls_built inc exc f message :
  fst (IncludeExcludeFilter_init inc exc) = Ok f ->
  filter_calls f message =
  (if configured exc then [scan_call (default [] exc) message] else [])
  ++ (if configured inc && negb (configured exc && scan_hit (default [] exc) message)
      then [scan_call (default [] inc) message] else []).
Proof.
  intros Hf. pose proof (filter_run_built inc exc f message Hf) as R.
  apply (f_equal snd) in R. cbn [snd] in R. rewrite R.
  destruct (configured inc), (configured exc); try reflexivity.
  now destruct (scan_hit (default [] exc) message).
Qed.

Lemma optional_rules_succeeds ps :
  (configured ps = true -> compiles (hyperscan_patterns 0 (default [] ps)) = true) ->
  exists log, optional_rules ps = (Ok (rule_of ps), log).
Proof.
  destruct ps as [[|p l]|]; intros Hc; [eexists; reflexivity| |eexists; reflexivity].
  specialize (Hc eq_refl). cbn [default from_option id hyperscan_patterns] in Hc.
  unfold optional_rules, IncludeExcludeRule_init.
  replace (0 <? Z.of_nat (length (p :: l))) with true
    by (symmetry; apply Z.ltb_lt; simpl length; lia).
  cbn [hyperscan_patterns]. rewrite Hc. eexists; reflexivity.
Qed.

(** The filter is built whenever its configured lists compile. *)
Lemma init_succeeds inc exc :
  (configured inc = true -> compiles (hyperscan_patterns 0 (default [] inc)) = true) ->
  (configured exc = true -> compiles (hyperscan_patterns 0 (default [] exc)) = true) ->
  exists f, fst (IncludeExcludeFilter_init inc exc) = Ok f.
Proof.
  intros Hi He. unfold IncludeExcludeFilter_init.
  destruct (optional_rules_succeeds inc Hi) as [l1 ->].
  destruct (optional_rules_succeeds exc He) as [l2 ->].
  eexists; reflexivity.
Qed.

End FilterFacts.

Section FilterClaims.
Import hyperscan include_exlude.
Context `{Engine}.

(** C2.  A filter built from a non-empty include list and a non-empty
    exclude list rejects every message that an exclude pattern matches,
    whatever the include patterns do, and then does not consult the
    include rules at all.  When no exclude pattern matches (and neither
    scan raises without a match) it accepts exactly when some include
    pattern matches.  In particular include=["message"],
    exclude=["message"] rejects "a message" under any engine in which
    the expression "message" matches that line. *)
Theorem filter_exclude_takes_priority :
  (forall inc exc f message,
      inc <> [] -> exc <> [] ->
      fst (IncludeExcludeFilter_init (Some inc) (Some exc)) = Ok f ->
      (any_pattern_matches exc message = true ->
       filter_value f message = Ok false
       /\ filter_calls f message = [scan_call exc message])
      /\ (any_pattern_matches exc message = false ->
          spurious_error exc message = false ->
          spurious_error inc message = false ->
          filter_value f message = Ok (any_pattern_matches inc message)))
  /\ (forall f,
        matches (encode_utf8 "message") HS_FLAG_DOTALL (encode_utf8 "a message") = true ->
        fst (IncludeExcludeFilter_init (Some ["message"%string]) (Some ["message"%string])) = Ok f ->
        filter_value f "a message" = Ok false).
Proof.
  assert (G : forall inc exc f message,
             inc <> [] -> exc <> [] ->
             fst (IncludeExcludeFilter_init (Some inc) (Some exc)) = Ok f ->
             any_pattern_matches exc message = true ->
             filter_value f message = Ok false
             /\ filter_calls f message = [scan_call exc message]).
  { intros inc exc f message Hi He Hf Hm.
    pose proof (filter_run_built _ _ _ message Hf) as R.
    destruct inc as [|pi li], exc as [|pe le]; try congruence.
    cbn [configured default from_option id] in R.
    unfold scan_hit in R at 1. rewrite Hm, orb_true_r in R.
    now inversion R. }
  split.
  - intros inc exc f message Hi He Hf. split; [now apply (G inc exc)|].
    intros Hm Hse Hsi.
    rewrite (filter_value_built _ _ _ message Hf).
    destruct inc as [|pi li], exc as [|pe le]; try congruence.
    cbn [configured default from_option id].
    unfold spurious_error in Hse, Hsi. unfold scan_hit.
    rewrite Hm in *. cbn [negb] in Hse. rewrite andb_true_r in Hse. rewrite Hse.
    cbn [orb negb andb].
    destruct (scan_raises (pi :: li) message), (any_pattern_matches (pi :: li) message);
      cbn in *; congruence.
  - intros f Hm Hf.
    refine (proj1 (G ["message"%string] ["message"%string] f "a message"%string _ _ Hf _));
      try congruence.
    cbn [any_pattern_matches existsb]. now rewrite Hm.
Qed.

(** C6.  With neither rule set configured [filter] returns True; with
    only include rules it returns True exactly when an include pattern
    matches; with only exclude rules it returns True exactly when no
    exclude pattern matches (the scan not raising without a match). *)
Theorem filter_policy inc exc f message :
  fst (IncludeExcludeFilter_init inc exc) = Ok f ->
  (configured inc = false -> configured exc = false ->
   filter_value f message = Ok true)
  /\ (configured inc = true -> configured exc = false ->
      spurious_error (default [] inc) message = false ->
      filter_value f message = Ok (any_pattern_matches (default [] inc) message))
  /\ (configured inc = false -> configured exc = true ->
      spurious_error (default [] exc) message = false ->
      filter_value f message = Ok (negb (any_pattern_matches (default [] exc) message))).
Proof.
  intros Hf. rewrite (filter_value_built _ _ _ message Hf).
  repeat split.
  - now intros -> ->.
  - intros -> -> Hs. unfold spurious_error in Hs. unfold scan_hit.
    destruct (scan_raises _ _), (any_pattern_matches _ _); cbn in *; congruence.
  - intros -> -> Hs. unfold spurious_error in Hs. unfold scan_hit.
    destruct (scan_raises _ _), (any_pattern_matches _ _); cbn in *; congruence.
Qed.

(** C3, as the code has it.  A scan that raises is taken for a match on
    either side: when the exclude scan raises, [filter] returns False;
    when the include scan raises, and the exclude rules are absent or
    their scan neither raised nor matched, [filter] returns True. *)
Theorem filter_scan_error_counts_as_match inc exc f message :
  fst (IncludeExcludeFilter_init inc exc) = Ok f ->
  (configured exc = true -> scan_raises (default [] exc) message = true ->
   filter_value f message = Ok false)
  /\ (configured inc = true -> scan_raises (default [] inc) message = true ->
      (configured exc = false \/ scan_hit (default [] exc) message = false) ->
      filter_value f message = Ok true).
Proof.
  intros Hf. rewrite (filter_value_built _ _ _ message Hf). split.
  - intros -> Hr. unfold scan_hit. rewrite Hr. now destruct (configured inc).
  - intros -> Hr Hx.
    assert (Hi : scan_hit (default [] inc) message = true)
      by (unfold scan_hit; now rewrite Hr).
    rewrite Hi. destruct (configured exc); [|reflexivity].
    destruct Hx as [Hx|Hx]; [congruence|]. now rewrite Hx.
Qed.

(** C9.  An empty pattern list is treated exactly like an absent one:
    the constructor gives the same filter and makes the same engine
    calls; with both lists empty [filter] returns True without calling
    the engine; and no call ever made by the constructor or by [filter]
    concerns an empty database. *)
Theorem filter_empty_list_is_absent :
  (forall exc, IncludeExcludeFilter_init (Some []) exc = IncludeExcludeFilter_init None exc)
  /\ (forall inc, IncludeExcludeFilter_init inc (Some []) = IncludeExcludeFilter_init inc None)
  /\ (exists f, IncludeExcludeFilter_init (Some []) (Some []) = (Ok f, [])
                /\ forall message, filter f message = (Ok true, f, []))
  /\ (forall inc exc, forallb nonempty_call (snd (IncludeExcludeFilter_init inc exc)) = true)
  /\ (forall inc exc f message,
        fst (IncludeExcludeFilter_init inc exc) = Ok f ->
        forallb nonempty_call (filter_calls f message) = true).
Proof.
  split; [reflexivity|]. split.
  { intros inc. unfold IncludeExcludeFilter_init. reflexivity. }
  split.
  { eexists. split; [reflexivity|]. reflexivity. }
  split.
  - intros inc exc. unfold IncludeExcludeFilter_init, optional_rules, IncludeExcludeRule_init.
    destruct inc as [[|pi li]|], exc as [[|pe le]|];
      cbn [length Z.of_nat Z.ltb Z.compare hyperscan_patterns];
      repeat match goal with |- context [compiles ?d] => destruct (compiles d) end;
      reflexivity.
  - intros inc exc f message Hf. rewrite (filter_calls_built _ _ _ message Hf).
    unfold scan_call.
    destruct inc as [[|pi li]|], exc as [[|pe le]|];
      cbn [configured default from_option id andb negb hyperscan_patterns];
      try reflexivity;
      destruct (scan_hit _ _); reflexivity.
Qed.

End FilterClaims.

Lemma filter_exclude_takes_priority_witness :
  (exists f,
      fst (@include_exlude.IncludeExcludeFilter_init include_exlude.literal_engine
             (Some ["message"%string]) (Some ["message"%string])) = Ok f
      /\ @include_exlude.filter_value include_exlude.literal_engine f "a message" = Ok false)
  /\ (exists f,
         fst (@include_exlude.IncludeExcludeFilter_init include_exlude.literal_engine
                (Some ["message"%string]) (Some ["not matching"%string])) = Ok f
         /\ @include_exlude.filter_value include_exlude.literal_engine f "a message" = Ok true).
Proof.
  split.
  - eexists. split; [reflexivity|].
    apply (proj2 (@filter_exclude_takes_priority include_exlude.literal_engine));
      reflexivity.
  - eexists. split; [reflexivity|].
    apply (proj2 (proj1 (@filter_exclude_takes_priority include_exlude.literal_engine)
                        ["message"%string] ["not matching"%string] _ "a message"%string
                        ltac:(discriminate) ltac:(discriminate) eq_refl));
      reflexivity.
Defined.

Lemma filter_policy_witness :
  (exists f,
      fst (@include_exlude.IncludeExcludeFilter_init include_exlude.literal_engine
             (Some []) None) = Ok f
      /\ @include_exlude.filter_value include_exlude.literal_engine f "a message" = Ok true)
  /\ (exists f,
         fst (@include_exlude.IncludeExcludeFilter_init include_exlude.literal_engine
                (Some ["not matching"%string]) None) = Ok f
         /\ @include_exlude.filter_value include_exlude.literal_engine f "a message" = Ok false)
  /\ (exists f,
         fst (@include_exlude.IncludeExcludeFilter_init include_exlude.halting_engine
                None (Some ["message"%string])) = Ok f
         /\ @include_exlude.filter_value include_exlude.halting_engine f "a message" = Ok false).
Proof.
  split; [|split].
  - eexists. split; [reflexivity|].
    apply (proj1 (@filter_policy include_exlude.literal_engine
                    (Some []) None _ "a message"%string eq_refl)); reflexivity.
  - eexists. split; [reflexivity|].
    apply (proj1 (proj2 (@filter_policy include_exlude.literal_engine
                           (Some ["not matching"%string]) None _ "a message"%string eq_refl)));
      reflexivity.
  - eexists. split; [reflexivity|].
    apply (proj2 (proj2 (@filter_policy include_exlude.halting_engine
                           None (Some ["message"%string]) _ "a message"%string eq_refl)));
      reflexivity.
Defined.

(** C3, as stated, fails: an exclude-only filter whose scan raises (and
    matches nothing) returns False. *)
Lemma filter_fail_open_counterexample :
  exists f,
    fst (@include_exlude.IncludeExcludeFilter_init include_exlude.broken_engine
           None (Some ["not matching"%string])) = Ok f
    /\ @include_exlude.scan_raises include_exlude.broken_engine
         ["not matching"%string] "a message" = true
    /\ @include_exlude.any_pattern_matches include_exlude.broken_engine
         ["not matching"%string] "a message" = false
    /\ @include_exlude.filter_value include_exlude.broken_engine f "a message" = Ok false
    /\ @include_exlude.filter_value include_exlude.broken_engine f "a message" <> Ok true.
Proof.
  eexists. split; [reflexivity|]. repeat split. discriminate.
Qed.

Lemma filter_scan_error_counts_as_match_witness :
  (exists f,
      fst (@include_exlude.IncludeExcludeFilter_init include_exlude.broken_engine
             (Some ["message"%string]) (Some ["not matching"%string])) = Ok f
      /\ @include_exlude.filter_value include_exlude.broken_engine f "a message" = Ok false)
  /\ (exists f,
         fst (@include_exlude.IncludeExcludeFilter_init include_exlude.broken_engine
                (Some ["not matching"%string]) None) = Ok f
         /\ @include_exlude.filter_value include_exlude.broken_engine f "a message" = Ok true).
Proof.
  split.
  - eexists. split; [reflexivity|].
    apply (proj1 (@filter_scan_error_counts_as_match include_exlude.broken_engine
                    (Some ["message"%string]) (Some ["not matching"%string]) _
                    "a message"%string eq_refl)); reflexivity.
  - eexists. split; [reflexivity|].
    apply (proj2 (@filter_scan_error_counts_as_match include_exlude.broken_engine
                    (Some ["not matching"%string]) None _ "a message"%string eq_refl));
      [reflexivity|reflexivity|left; reflexivity].
Defined.

(** * Properties of the SQS driver *)
Section DriverFacts.
Import sqs_trigger.
Context `{Storage}.

Lemma gseq_ok_l {A B} (t : list action) (a : A) (k : gen B) :
  gseq (t, Ok a) k = (t ++ fst k, snd k).
Proof. unfold gseq, gbind. now destruct k. Qed.

Lemma gseq_raise_l {A B} (t : list action) (e : exn) (k : gen B) :
  gseq ((t, Raise e) : gen A) k = (t, Raise e).
Proof. reflexivity. Qed.

Lemma gseq_assoc {A B C} (m : gen A) (k : gen B) (q : gen C) :
  gseq (gseq m k) q = gseq m (gseq k q).
Proof.
  destruct m as [t [a|e]]; [|reflexivity].
  destruct k as [t' [b|e]]; destruct q as [t'' [c|e']]; unfold gseq, gbind;
    now rewrite ?app_assoc.
Qed.

Lemma gseq_gret_l {B} (k : gen B) : gseq (gret tt) k = k.
Proof. unfold gseq, gbind, gret. now destruct k. Qed.

Lemma gseq_gret_r (m : gen unit) : gseq m (gret tt) = m.
Proof.
  destruct m as [t [[]|e]]; unfold gseq, gbind, gret; [|reflexivity].
  now rewrite app_nil_r.
Qed.

Lemma string_length_zero (s : string) :
  (String.length s =? 0)%nat = true <-> s = EmptyString.
Proof. destruct s; split; intros E; simpl in *; congruence. Qed.

(** Lines that end before the cursor leave no trace. *)
Lemma for_log_events_skip region bucket arn key cursor n m skipped rest :
  Forall (fun l => ending_of l < cursor) skipped ->
  for_log_events region bucket arn key cursor n m (skipped ++ rest)
  = for_log_events region bucket arn key cursor n m rest.
Proof.
  induction 1 as [|[[p b] e] skipped Hlt _ IH]; [reflexivity|].
  cbn [app for_log_events]. unfold ending_of in Hlt. cbn [snd] in Hlt.
  replace (e <? cursor) with true by (symmetry; apply Z.ltb_lt; lia). exact IH.
Qed.

(** Lines that end at or after the cursor are all emitted, in order,
    provided they decode. *)
Lemma for_log_events_emit region bucket arn key cursor n m rest :
  Forall (fun l => cursor <= ending_of l) rest ->
  Forall (fun l => cursor <= ending_of l -> utf8_well_formed (payload_of l) = true) rest ->
  for_log_events region bucket arn key cursor n m rest
  = (List.map (yield_of region bucket arn key n m) rest, Ok tt).
Proof.
  induction 1 as [|[[p b] e] rest Hge _ IH]; intros Hd; [reflexivity|].
  inversion Hd as [|? ? Hp Hd']; subst.
  unfold ending_of, payload_of in Hge, Hp. cbn [fst snd] in Hge, Hp.
  cbn [for_log_events].
  replace (e <? cursor) with false by (symmetry; apply Z.ltb_ge; lia).
  unfold decode_utf8. rewrite (Hp Hge). rewrite (IH Hd'). reflexivity.
Qed.

(** The first line that fails to decode, among those not skipped, ends
    the generator with [UnicodeDecodeError]. *)
Lemma for_log_events_undecodable region bucket arn key cursor n m l rest :
  cursor <= ending_of l -> utf8_well_formed (payload_of l) = false ->
  for_log_events region bucket arn key cursor n m (l :: rest)
  = ([], Raise UnicodeDecodeError).
Proof.
  destruct l as [[p b] e]. unfold ending_of, payload_of. cbn [fst snd]. intros Hge Hp.
  cbn [for_log_events].
  replace (e <? cursor) with false by (symmetry; apply Z.ltb_ge; lia).
  unfold decode_utf8. now rewrite Hp.
Qed.

Lemma ordered_from_lower_bound lo lines :
  ordered_from lo lines = true -> Forall (fun l => lo <= ending_of l) lines.
Proof.
  revert lo. induction lines as [|l lines IH]; intros lo Ho; [constructor|].
  cbn [ordered_from] in Ho. apply andb_prop in Ho as [Ho Hr]. apply andb_prop in Ho as [Hb He].
  apply Z.leb_le in Hb, He. constructor; [lia|].
  eapply Forall_impl; [apply (IH _ Hr)|]. cbn beta. intros; lia.
Qed.

(** An ordered stream is a skipped prefix followed by what is emitted. *)
Lemma ordered_split cursor lo lines :
  ordered_from lo lines = true ->
  exists skipped emitted,
    lines = skipped ++ emitted
    /\ Forall (fun l => ending_of l < cursor) skipped
    /\ Forall (fun l => cursor <= ending_of l) emitted.
Proof.
  revert lo. induction lines as [|l lines IH]; intros lo Ho.
  - exists [], []. repeat split; constructor.
  - destruct (Z_lt_le_dec (ending_of l) cursor) as [Hlt|Hge].
    + cbn [ordered_from] in Ho. apply andb_prop in Ho as [_ Hr].
      destruct (IH _ Hr) as (sk & em & -> & Hs & He).
      exists (l :: sk), em. repeat split; [constructor|]; assumption.
    + exists [], (l :: lines). repeat split; [constructor|].
      pose proof (ordered_from_lower_bound _ _ Ho) as Hall.
      cbn [ordered_from] in Ho. apply andb_prop in Ho as [_ Hr].
      constructor; [assumption|].
      eapply Forall_impl; [apply (ordered_from_lower_bound _ _ Hr)|].
      cbn beta. intros; lia.
Qed.

Lemma in_stream_order_ordered lines :
  in_stream_order lines = true -> exists lo, ordered_from lo lines = true.
Proof. destruct lines as [|l r]; [now exists 0|]. cbn. eauto. Qed.

Lemma for_s3_records_app n m pre post :
  for_s3_records n m (pre ++ post)
  = gseq (for_s3_records n m pre) (for_s3_records n (m + length pre) post).
Proof.
  revert m. induction pre as [|r pre IH]; intros m; cbn [app for_s3_records length].
  - rewrite gseq_gret_l. now rewrite Nat.add_0_r.
  - rewrite IH, gseq_assoc. now replace (S m + length pre)%nat with (m + S (length pre))%nat by lia.
Qed.

Lemma for_sqs_records_unconfigured cfg n pre r post :
  config.get_input_by_type_and_id cfg "sqs" (eventSourceARN r) = None ->
  for_sqs_records cfg n (pre ++ r :: post) = for_sqs_records cfg n pre.
Proof.
  intros Hr. revert n. induction pre as [|q pre IH]; intros n; cbn [app for_sqs_records].
  - now rewrite Hr.
  - destruct (config.get_input_by_type_and_id cfg "sqs" (eventSourceARN q)); [|reflexivity].
    now rewrite IH.
Qed.

End DriverFacts.

Section DriverClaims.
Import sqs_trigger.
Context `{Storage}.

(** No event that ends before the cursor is ever yielded, whatever the
    stream. *)
Lemma for_log_events_never_before_cursor region bucket arn key cursor n m lines :
  Forall (not_before cursor)
         (fst (for_log_events region bucket arn key cursor n m lines)).
Proof.
  induction lines as [|[[p b] e] lines IH]; cbn [for_log_events]; [constructor|].
  destruct (e <? cursor) eqn:He; [exact IH|]. apply Z.ltb_ge in He.
  destruct (decode_utf8 p); [|constructor].
  destruct (for_log_events _ _ _ _ _ _ _ lines) as [t [u|x]];
    cbn in *; constructor; assumption.
Qed.

(** C1.  For every record (hence every resume cursor) the driver yields
    no event whose ending offset is strictly less than
    [last_ending_offset], whatever the stream.  For every stream that
    [get_by_lines] produces for the record, ordered as the lines of one
    pass are and with well-formed UTF-8 in the lines that are not
    skipped: the stream is a skipped prefix, all of whose lines end
    strictly before [last_ending_offset], followed by the emitted lines,
    none of which ends before it, so that the first emitted line is the
    first of the stream that reaches the cursor; after the storage read
    the driver yields exactly the emitted lines, payload and offsets
    unchanged, in stream order, and then finishes. *)
Theorem driver_resumes_at_cursor sqs_record_n s3_record_n r :
  let cursor := default 0 (last_ending_offset r) in
  let bucket_name := get_bucket_name_from_arn (bucket_arn r) in
  let lines := get_by_lines bucket_name (object_key r) cursor
                            (default 0 (last_beginning_offset r)) in
  Forall (not_before cursor) (fst (handle_s3_record sqs_record_n s3_record_n r))
  /\ (bucket_arn r <> EmptyString -> object_key r <> EmptyString ->
      in_stream_order lines = true ->
      Forall (fun l => cursor <= ending_of l -> utf8_well_formed (payload_of l) = true) lines ->
      exists skipped emitted,
        lines = skipped ++ emitted
        /\ Forall (fun l => ending_of l < cursor) skipped
        /\ Forall (fun l => cursor <= ending_of l) emitted
        /\ handle_s3_record sqs_record_n s3_record_n r
           = (StorageRead bucket_name (object_key r) cursor (default 0 (last_beginning_offset r))
                :: List.map (yield_of (awsRegion r) bucket_name (bucket_arn r) (object_key r)
                                      sqs_record_n s3_record_n) emitted,
              Ok tt)).
Proof.
  intros cursor bucket_name lines. split.
  - unfold handle_s3_record.
    destruct (_ || _); [constructor|].
    fold cursor bucket_name lines.
    pose proof (for_log_events_never_before_cursor (awsRegion r) bucket_name (bucket_arn r)
                  (object_key r) cursor sqs_record_n s3_record_n lines) as N.
    destruct (for_log_events _ _ _ _ _ _ _ lines) as [t [u|x]];
      cbn in *; constructor; easy.
  - intros Harn Hkey Hord Hdec.
    destruct (in_stream_order_ordered _ Hord) as [lo Hlo].
    destruct (ordered_split cursor _ _ Hlo) as (skipped & emitted & Hsplit & Hsk & Hem).
    exists skipped, emitted. repeat split; try assumption.
    unfold handle_s3_record.
    destruct (String.length (bucket_arn r) =? 0)%nat eqn:Ea;
      [apply string_length_zero in Ea; contradiction|].
    destruct (String.length (object_key r) =? 0)%nat eqn:Ek;
      [apply string_length_zero in Ek; contradiction|].
    cbn [orb]. fold cursor bucket_name lines. rewrite Hsplit.
    rewrite for_log_events_skip by assumption.
    rewrite for_log_events_emit; [reflexivity|assumption|].
    rewrite Hsplit in Hdec. apply Forall_app in Hdec. tauto.
Qed.

(** C7.  A record whose bucket ARN or object key is empty raises before
    the storage is read and yields nothing; within the loop over the
    records of a body, nothing is read or yielded for it or for any
    record after it, and the loop cannot end normally. *)
Theorem empty_bucket_or_key_is_fatal sqs_record_n s3_record_n r :
  bucket_arn r = EmptyString \/ object_key r = EmptyString ->
  let failure := Raise (Exception "Cannot find bucket_arn or object_key for s3") in
  handle_s3_record sqs_record_n s3_record_n r = ([], failure)
  /\ (forall pre post,
        for_s3_records sqs_record_n s3_record_n (pre ++ r :: post)
        = match for_s3_records sqs_record_n s3_record_n pre with
          | (t, Ok _) => (t, failure)
          | (t, Raise e) => (t, Raise e)
          end)
  /\ (forall cfg arn post rest,
        is_Some (config.get_input_by_type_and_id cfg "sqs" arn) ->
        _handle_sqs_event cfg ({| eventSourceARN := arn; body := r :: post |} :: rest)
        = ([], failure)).
Proof.
  intros Hempty failure.
  assert (Hr : forall n m, handle_s3_record n m r = ([], failure)).
  { intros n m. unfold handle_s3_record.
    destruct Hempty as [-> | ->]; cbn [String.length Nat.eqb orb]; [reflexivity|].
    now rewrite orb_true_r. }
  split; [apply Hr|]. split.
  - intros pre post. rewrite for_s3_records_app. cbn [for_s3_records]. rewrite Hr.
    destruct (for_s3_records sqs_record_n s3_record_n pre) as [t [[]|e]]; [|reflexivity].
    unfold gseq at 1. unfold gbind. cbn. now rewrite app_nil_r.
  - intros cfg arn post rest [i Hi]. unfold _handle_sqs_event.
    cbn [for_sqs_records eventSourceARN body for_s3_records]. rewrite Hi, Hr. reflexivity.
Qed.

(** C10.  A record whose [eventSourceARN] has no configured input of
    type "sqs" ends the generator there, normally: the run over a
    notification is the run over the records before it; nothing is
    done for that record or any later one, and no error is raised by
    reaching it. *)
Theorem unconfigured_input_ends_generator cfg pre r post :
  config.get_input_by_type_and_id cfg "sqs" (eventSourceARN r) = None ->
  _handle_sqs_event cfg (r :: post) = ([], Ok tt)
  /\ _handle_sqs_event cfg (pre ++ r :: post) = _handle_sqs_event cfg pre.
Proof.
  intros Hr. split.
  - unfold _handle_sqs_event. cbn [for_sqs_records]. now rewrite Hr.
  - apply for_sqs_records_unconfigured, Hr.
Qed.

End DriverClaims.

Example driver_run_with_cursor :
  @sqs_trigger.handle_s3_record sqs_trigger.example_storage 0 0
    (sqs_trigger.example_s3_record (Some 13))
  = ([sqs_trigger.StorageRead "logs" "app/2021.log" 13 0;
      sqs_trigger.Yield
        {| sqs_trigger.fields_message := "second";
           sqs_trigger.fields_log_offset := 6;
           sqs_trigger.fields_log_file_path :=
             "https://logs.s3.app/2021.log.amazonaws.com/app/2021.log";
           sqs_trigger.fields_aws_s3_bucket_name := "logs";
           sqs_trigger.fields_aws_s3_bucket_arn := "arn:aws:s3:::logs";
           sqs_trigger.fields_aws_s3_object_key := "app/2021.log";
           sqs_trigger.fields_cloud_region := "eu-central-1" |} 6 13 0 0;
      sqs_trigger.Yield
        {| sqs_trigger.fields_message := "third";
           sqs_trigger.fields_log_offset := 13;
           sqs_trigger.fields_log_file_path :=
             "https://logs.s3.app/2021.log.amazonaws.com/app/2021.log";
           sqs_trigger.fields_aws_s3_bucket_name := "logs";
           sqs_trigger.fields_aws_s3_bucket_arn := "arn:aws:s3:::logs";
           sqs_trigger.fields_aws_s3_object_key := "app/2021.log";
           sqs_trigger.fields_cloud_region := "eu-central-1" |} 13 19 0 0],
     Ok tt).
Proof. vm_compute. reflexivity. Qed.

Lemma driver_resumes_at_cursor_witness :
  exists skipped emitted,
    sqs_trigger.example_lines = skipped ++ emitted
    /\ Forall (fun l => sqs_trigger.ending_of l < 13) skipped
    /\ Forall (fun l => 13 <= sqs_trigger.ending_of l) emitted
    /\ @sqs_trigger.handle_s3_record sqs_trigger.example_storage 0 0
         (sqs_trigger.example_s3_record (Some 13))
       = (sqs_trigger.StorageRead "logs" "app/2021.log" 13 0
            :: List.map (sqs_trigger.yield_of "eu-central-1" "logs" "arn:aws:s3:::logs"
                                              "app/2021.log" 0 0) emitted,
          Ok tt).
Proof.
  apply (proj2 (@driver_resumes_at_cursor sqs_trigger.example_storage 0 0
                  (sqs_trigger.example_s3_record (Some 13)))).
  - discriminate.
  - discriminate.
  - reflexivity.
  - repeat constructor.
Defined.

Lemma empty_bucket_or_key_is_fatal_witness :
  @sqs_trigger.handle_s3_record sqs_trigger.example_storage 0 1
    {| sqs_trigger.awsRegion := "eu-central-1";
       sqs_trigger.bucket_arn := "arn:aws:s3:::logs";
       sqs_trigger.object_key := "";
       sqs_trigger.last_ending_offset := None;
       sqs_trigger.last_beginning_offset := None |}
  = ([], Raise (Exception "Cannot find bucket_arn or object_key for s3")).
Proof.
  apply (@empty_bucket_or_key_is_fatal sqs_trigger.example_storage 0 1).
  right. reflexivity.
Defined.

Lemma unconfigured_input_ends_generator_witness :
  @sqs_trigger._handle_sqs_event sqs_trigger.example_storage sqs_trigger.example_config
    [sqs_trigger.example_known_record; sqs_trigger.example_unknown_record;
     sqs_trigger.example_known_record]
  = @sqs_trigger._handle_sqs_event sqs_trigger.example_storage sqs_trigger.example_config
      [sqs_trigger.example_known_record].
Proof.
  apply (proj2 (@unconfigured_input_ends_generator sqs_trigger.example_storage
                  sqs_trigger.example_config [sqs_trigger.example_known_record]
                  sqs_trigger.example_unknown_record [sqs_trigger.example_known_record]
                  eq_refl)).
Defined.

(** * Properties of the shipper *)
Section ShipperFacts.
Import sqs_trigger es.
Local Open Scope string_scope.
Local Open Scope Z_scope.

Lemma append_nil (t : string) : "" +:+ t = t.
Proof. reflexivity. Qed.

Lemma append_cons (c : ascii) (s t : string) : String c s +:+ t = String c (s +:+ t).
Proof. reflexivity. Qed.

Lemma append_empty_r (s : string) : s +:+ "" = s.
Proof. induction s as [|c s IH]; rewrite ?append_nil, ?append_cons; congruence. Qed.

Lemma append_assoc (s t u : string) : (s +:+ t) +:+ u = s +:+ (t +:+ u).
Proof. induction s as [|c s IH]; rewrite ?append_nil, ?append_cons; congruence. Qed.

Lemma append_length (s t : string) :
  String.length (s +:+ t) = (String.length s + String.length t)%nat.
Proof.
  induction s as [|c s IH]; rewrite ?append_nil, ?append_cons; cbn [String.length];
    [reflexivity|]. now rewrite IH.
Qed.

Lemma append_inv_head (s t u : string) : s +:+ t = s +:+ u -> t = u.
Proof.
  induction s as [|c s IH]; rewrite ?append_nil, ?append_cons; [trivial|].
  intros E. apply IH. congruence.
Qed.

Lemma append_inv_tail (s s' t : string) :
  String.length s = String.length s' -> s +:+ t = s' +:+ t -> s = s'.
Proof.
  revert s'. induction s as [|c s IH]; intros [|c' s'] Hl E;
    cbn [String.length] in Hl; try congruence.
  rewrite !append_cons in E. injection E as -> E. f_equal. apply IH; congruence.
Qed.

Lemma encode_utf8_inj (s t : string) : encode_utf8 s = encode_utf8 t -> s = t.
Proof.
  unfold encode_utf8. intros E.
  rewrite <- (string_of_list_byte_of_string s), <- (string_of_list_byte_of_string t).
  now rewrite E.
Qed.

Lemma ascii_compare_refl (c : ascii) : Ascii.compare c c = Eq.
Proof. unfold Ascii.compare. apply N.compare_refl. Qed.

Lemma compare_append_same (s t u : string) :
  String.compare (s +:+ t) (s +:+ u) = String.compare t u.
Proof.
  induction s as [|c s IH]; rewrite ?append_nil, ?append_cons; [reflexivity|].
  cbn [String.compare]. now rewrite ascii_compare_refl.
Qed.

(** On strings of one length the last character decides only ties. *)
Lemma compare_snoc (s t : string) (c d : ascii) :
  String.length s = String.length t ->
  String.compare (s +:+ String c "") (t +:+ String d "")
  = match String.compare s t with
    | Eq => Ascii.compare c d
    | r => r
    end.
Proof.
  revert t. induction s as [|a s IH]; intros [|b t] Hl;
    cbn [String.length] in Hl; try congruence;
    rewrite ?append_nil, ?append_cons; cbn [String.compare].
  - now destruct (Ascii.compare c d).
  - destruct (Ascii.compare a b); [|reflexivity|reflexivity]. apply IH. congruence.
Qed.

Lemma digit_char_compare (x y : Z) :
  0 <= x < 10 -> 0 <= y < 10 ->
  Ascii.compare (digit_char x) (digit_char y) = (x ?= y).
Proof.
  intros Hx Hy. unfold Ascii.compare, digit_char.
  rewrite !N_ascii_embedding by lia.
  rewrite Z2N.inj_compare by lia. apply Z.add_compare_mono_l.
Qed.

Lemma zeros_snoc (k : nat) : zeros k +:+ "0" = String "0" (zeros k).
Proof.
  induction k as [|k IH]; cbn [zeros]; rewrite ?append_nil, ?append_cons; congruence.
Qed.

Lemma fixed_width_S (w : nat) (n : Z) :
  fixed_width (S w) n = fixed_width w (n / 10) +:+ String (digit_char (n mod 10)) "".
Proof. reflexivity. Qed.

Lemma fixed_width_zero (w : nat) : fixed_width w 0 = zeros w.
Proof.
  induction w as [|w IH]; [reflexivity|].
  cbn [fixed_width]. change (0 / 10) with 0. change (0 mod 10) with 0.
  rewrite IH. apply zeros_snoc.
Qed.

Lemma fixed_width_length (w : nat) (n : Z) : String.length (fixed_width w n) = w.
Proof.
  revert n. induction w as [|w IH]; intros n; [reflexivity|].
  cbn [fixed_width]. rewrite append_length, IH. cbn [String.length]. lia.
Qed.

(** More fuel than needed does not change the digits. *)
Lemma decimal_fuel_enough (f g : nat) (n : Z) :
  0 <= n -> n < 2 ^ Z.of_nat (S f) -> n < 2 ^ Z.of_nat (S g) ->
  decimal_fuel (S f) n = decimal_fuel (S g) n.
Proof.
  revert g n. induction f as [|f IH]; intros g n H0 Hf Hg.
  - cbn [decimal_fuel]. change (2 ^ Z.of_nat 1) with 2 in Hf.
    now replace (n <? 10) with true by (symmetry; apply Z.ltb_lt; lia).
  - cbn [decimal_fuel]. destruct (n <? 10) eqn:Hn; [reflexivity|].
    apply Z.ltb_ge in Hn.
    destruct g as [|g].
    { change (2 ^ Z.of_nat 1) with 2 in Hg. lia. }
    f_equal. apply IH.
    + apply Z.div_pos; lia.
    + rewrite Nat2Z.inj_succ, Z.pow_succ_r in Hf by lia.
      apply Z.div_lt_upper_bound; lia.
    + rewrite Nat2Z.inj_succ, Z.pow_succ_r in Hg by lia.
      apply Z.div_lt_upper_bound; lia.
Qed.

Lemma decimal_small (n : Z) : 0 <= n < 10 -> decimal n = String (digit_char n) "".
Proof.
  intros Hn. unfold decimal. cbn [decimal_fuel].
  now replace (n <? 10) with true by (symmetry; apply Z.ltb_lt; lia).
Qed.

Lemma decimal_step (n : Z) :
  10 <= n -> decimal n = decimal (n / 10) +:+ String (digit_char (n mod 10)) "".
Proof.
  intros Hn. unfold decimal at 1. cbn [decimal_fuel].
  replace (n <? 10) with false by (symmetry; apply Z.ltb_ge; lia).
  f_equal. unfold decimal.
  assert (Hq : 1 <= n / 10) by (apply Z.div_le_lower_bound; lia).
  assert (Hl : 0 < Z.log2 n) by (apply Z.log2_pos; lia).
  destruct (Z.to_nat (Z.log2 n)) as [|f] eqn:Ef; [lia|].
  apply decimal_fuel_enough; [lia| |].
  - apply Z.div_lt_upper_bound; [lia|].
    assert (n < 2 ^ Z.succ (Z.log2 n)) by (apply Z.log2_spec; lia).
    replace (Z.of_nat (S f)) with (Z.log2 n) by lia.
    rewrite Z.pow_succ_r in * by lia. lia.
  - replace (Z.of_nat (S (Z.to_nat (Z.log2 (n / 10)))))
      with (Z.succ (Z.log2 (n / 10))) by (pose proof (Z.log2_nonneg (n / 10)); lia).
    apply Z.log2_spec. lia.
Qed.

(** A number below [10 ^ w], zero-padded to width [w], is its [w]
    low-order digits. *)
Lemma zero_pad_fixed_width (w : nat) (n : Z) :
  0 <= n < 10 ^ Z.of_nat (S w) ->
  zero_pad (decimal n) (S w) = fixed_width (S w) n.
Proof.
  revert n. induction w as [|w IH]; intros n Hn.
  - change (10 ^ Z.of_nat 1) with 10 in Hn. rewrite decimal_small by lia.
    unfold zero_pad. cbn [fixed_width String.length Nat.sub zeros].
    rewrite !append_nil. now rewrite Z.mod_small by lia.
  - rewrite (fixed_width_S (S w)).
    destruct (Z_lt_le_dec n 10) as [Hs|Hb].
    + rewrite decimal_small by lia.
      rewrite (Z.div_small n 10), (Z.mod_small n 10) by lia.
      rewrite fixed_width_zero. unfold zero_pad. cbn [String.length Nat.sub].
      reflexivity.
    + rewrite decimal_step by lia.
      rewrite <- (IH (n / 10)).
      * unfold zero_pad. rewrite append_length. cbn [String.length].
        rewrite <- append_assoc. do 3 f_equal. lia.
      * split; [apply Z.div_pos; lia|].
        apply Z.div_lt_upper_bound; [lia|].
        rewrite (Nat2Z.inj_succ (S w)), Z.pow_succ_r in Hn by lia. lia.
Qed.

Lemma compare_by_digits (qa qb ra rb : Z) :
  0 <= ra < 10 -> 0 <= rb < 10 ->
  match qa ?= qb with
  | Eq => ra ?= rb
  | r => r
  end = (10 * qa + ra ?= 10 * qb + rb).
Proof.
  intros Ha Hb. symmetry.
  destruct (Z.compare_spec qa qb) as [->|Hlt|Hgt].
  - destruct (Z.compare_spec ra rb) as [->|Hl|Hg].
    + apply Z.compare_refl.
    + apply Z.compare_lt_iff. lia.
    + apply Z.compare_gt_iff. lia.
  - apply Z.compare_lt_iff. lia.
  - apply Z.compare_gt_iff. lia.
Qed.

(** Fixed-width digit strings compare as the numbers they render. *)
Lemma fixed_width_compare (w : nat) (a b : Z) :
  0 <= a < 10 ^ Z.of_nat w -> 0 <= b < 10 ^ Z.of_nat w ->
  String.compare (fixed_width w a) (fixed_width w b) = (a ?= b).
Proof.
  revert a b. induction w as [|w IH]; intros a b Ha Hb.
  - change (10 ^ Z.of_nat 0) with 1 in *. assert (a = 0) by lia. assert (b = 0) by lia.
    subst. reflexivity.
  - cbn [fixed_width]. rewrite Nat2Z.inj_succ, Z.pow_succ_r in Ha, Hb by lia.
    rewrite compare_snoc by now rewrite !fixed_width_length.
    rewrite IH; cycle 1.
    { split; [apply Z.div_pos; lia|apply Z.div_lt_upper_bound; lia]. }
    { split; [apply Z.div_pos; lia|apply Z.div_lt_upper_bound; lia]. }
    rewrite digit_char_compare by (apply Z.mod_pos_bound; lia).
    rewrite compare_by_digits by (apply Z.mod_pos_bound; lia).
    now rewrite <- !Z.div_mod by lia.
Qed.

Lemma format_012d_nonneg (n : Z) : 0 <= n -> format_012d n = zero_pad (decimal n) 12.
Proof.
  intros Hn. unfold format_012d, zero_pad.
  replace (n <? 0) with false by (symmetry; apply Z.ltb_ge; lia).
  rewrite Z.abs_eq by lia. reflexivity.
Qed.

Lemma sha256_hexdigest_length (data : bytes) :
  String.length (hashlib.sha256_hexdigest data) = 64%nat.
Proof.
  unfold hashlib.sha256_hexdigest, hashlib.sha256_words.
  generalize (fold_left hashlib.compress
                (hashlib.blocks
                   (length (hashlib.words_of_octets
                              (length (hashlib.pad (List.map Byte.to_N data)))
                              (hashlib.pad (List.map Byte.to_N data))))
                   (hashlib.words_of_octets
                      (length (hashlib.pad (List.map Byte.to_N data)))
                      (hashlib.pad (List.map Byte.to_N data))))
                hashlib.start).
  intros s. reflexivity.
Qed.

End ShipperFacts.

Section ShipperClaims.
Import sqs_trigger es.
Local Open Scope string_scope.
Local Open Scope Z_scope.

Lemma substring_prefix_length (n : nat) (s : string) :
  (n <= String.length s)%nat -> String.length (substring 0 n s) = n.
Proof.
  revert s. induction n as [|n IH]; intros [|c s] Hl; cbn in *;
    try lia; try reflexivity.
  now rewrite IH by lia.
Qed.

(** [flush] with two or more pending actions sends them all in one bulk
    request and empties the batch. *)
Lemma flush_sends_two_or_more w self :
  (2 <= length (bulk_actions w self))%nat ->
  es_bulk_calls (fst (flush w self)) = (es_bulk_calls w ++ [bulk_actions w self])%list
  /\ bulk_actions (fst (flush w self)) (snd (flush w self)) = [].
Proof.
  intros Hn. unfold flush.
  replace (1 <? Z.of_nat (length (bulk_actions w self))) with true
    by (symmetry; apply Z.ltb_lt; lia).
  split; reflexivity.
Qed.

(** [flush] with exactly one pending action sends nothing and still
    empties the batch. *)
Lemma flush_drops_one w self a :
  bulk_actions w self = [a] ->
  es_bulk_calls (fst (flush w self)) = es_bulk_calls w
  /\ bulk_actions (fst (flush w self)) (snd (flush w self)) = [].
Proof. intros Ha. unfold flush. rewrite Ha. split; reflexivity. Qed.

(** C4, at the failing input.  One event is sent to a fresh shipper
    (batch size 10000), so exactly one action is pending; [flush] then
    issues no bulk request at all and leaves the batch empty: the
    buffered event is lost. *)
Theorem flush_single_pending_event_is_not_written :
  let sent := send (example_event 6) initial_store
                   (ElasticsearchShipper_init "generic" "default") in
  let flushed := flush (fst sent) (snd sent) in
  bulk_actions (fst sent) (snd sent)
  = [make_action (ElasticsearchShipper_init "generic" "default") (example_event 6)]
  /\ Z.of_nat (length (bulk_actions (fst sent) (snd sent))) < _bulk_batch_size (fst sent)
  /\ es_bulk_calls (fst sent) = []
  /\ es_bulk_calls (fst flushed) = []
  /\ bulk_actions (fst flushed) (snd flushed) = [].
Proof. cbv zeta. repeat split. Qed.

(** C5.  For an event carrying bucket ARN [a], object key [k] and a
    beginning offset [o] (a byte position, so not negative) the
    identifier is the first 10 hexadecimal characters of
    sha256(a + k), a dash, and [o] zero-padded to 12 decimal digits;
    the prefix is exactly 10 characters long.  The identifier depends
    on nothing else, so equal (a, k, o) give equal identifiers, and
    replacing the key, or the ARN by one of the same length, by a
    different one changes the octets that are hashed. *)
Theorem s3_object_id_spec :
  (forall p, 0 <= fields_log_offset p ->
     _s3_object_id p
     = substring 0 10 (hashlib.sha256_hexdigest
                         (encode_utf8 (fields_aws_s3_bucket_arn p +:+ fields_aws_s3_object_key p)))
       +:+ "-" +:+ zero_pad (decimal (fields_log_offset p)) 12
     /\ _s3_object_id p
        = spec_identifier (fields_aws_s3_bucket_arn p) (fields_aws_s3_object_key p)
                          (fields_log_offset p))
  /\ (forall data, String.length (substring 0 10 (hashlib.sha256_hexdigest data)) = 10%nat)
  /\ (forall p q,
        fields_aws_s3_bucket_arn p = fields_aws_s3_bucket_arn q ->
        fields_aws_s3_object_key p = fields_aws_s3_object_key q ->
        fields_log_offset p = fields_log_offset q ->
        _s3_object_id p = _s3_object_id q)
  /\ (forall a k k', k <> k' -> encode_utf8 (a +:+ k) <> encode_utf8 (a +:+ k'))
  /\ (forall a a' k,
        String.length a = String.length a' -> a <> a' ->
        encode_utf8 (a +:+ k) <> encode_utf8 (a' +:+ k)).
Proof.
  split; [|split; [|split; [|split]]].
  - intros p Hp. unfold spec_identifier, _s3_object_id.
    rewrite format_012d_nonneg by assumption. split; reflexivity.
  - intros data. apply substring_prefix_length. rewrite sha256_hexdigest_length. lia.
  - intros p q Ha Hk Ho. unfold _s3_object_id. now rewrite Ha, Hk, Ho.
  - intros a k k' Hne E. apply encode_utf8_inj, append_inv_head in E. contradiction.
  - intros a a' k Hl Hne E. apply encode_utf8_inj, append_inv_tail in E; [contradiction|assumption].
Qed.

(** C8.  For one source object and beginning offsets [a], [b] with
    0 <= a, b < 10^12, the identifiers compare, as strings, the way the
    offsets compare as numbers; in particular the identifier of [a] is
    lexicographically less than or equal to that of [b] exactly when
    a <= b. *)
Theorem s3_object_id_order p q :
  fields_aws_s3_bucket_arn p = fields_aws_s3_bucket_arn q ->
  fields_aws_s3_object_key p = fields_aws_s3_object_key q ->
  0 <= fields_log_offset p < 10 ^ 12 ->
  0 <= fields_log_offset q < 10 ^ 12 ->
  String.compare (_s3_object_id p) (_s3_object_id q)
  = (fields_log_offset p ?= fields_log_offset q)
  /\ (String.leb (_s3_object_id p) (_s3_object_id q) = true
      <-> fields_log_offset p <= fields_log_offset q).
Proof.
  intros Ha Hk Hp Hq.
  assert (C : String.compare (_s3_object_id p) (_s3_object_id q)
              = (fields_log_offset p ?= fields_log_offset q)).
  { unfold _s3_object_id. rewrite Ha, Hk, !compare_append_same.
    rewrite !format_012d_nonneg by lia.
    rewrite !(zero_pad_fixed_width 11) by (change (10 ^ Z.of_nat 12) with (10 ^ 12); lia).
    apply fixed_width_compare; change (10 ^ Z.of_nat 12) with (10 ^ 12); lia. }
  split; [exact C|].
  unfold String.leb. rewrite C.
  destruct (Z.compare_spec (fields_log_offset p) (fields_log_offset q)); split; intros; try lia;
    try reflexivity; try discriminate.
Qed.

End ShipperClaims.

Lemma s3_object_id_spec_witness :
  es._s3_object_id (es.example_event 6) = "71bd6fdb0e-000000000006"%string.
Proof.
  rewrite (proj1 (proj1 s3_object_id_spec (es.example_event 6) ltac:(cbn; lia))).
  vm_compute. reflexivity.
Defined.

Lemma s3_object_id_order_witness :
  String.leb (es._s3_object_id (es.example_event 6)) (es._s3_object_id (es.example_event 13)) = true.
Proof.
  apply (proj2 (s3_object_id_order (es.example_event 6) (es.example_event 13)
                  eq_refl eq_refl ltac:(cbn; lia) ltac:(cbn; lia))).
  cbn. lia.
Defined.

(** * The shipper: batching, flushing and the shared class list *)
Section ShipperBatching.
Import sqs_trigger es.
Local Open Scope Z_scope.

(** What [append] does, seen through the attribute lookup of the same
    instance. *)
Lemma append_bulk_action_view a w self :
  let r := append_bulk_action a w self in
  bulk_actions (fst r) (snd r) = bulk_actions w self ++ [a]
  /\ es_bulk_calls (fst r) = es_bulk_calls w
  /\ _bulk_batch_size (fst r) = _bulk_batch_size w
  /\ _dataset (snd r) = _dataset self
  /\ _namespace (snd r) = _namespace self
  /\ _es_index (snd r) = _es_index self.
Proof.
  unfold append_bulk_action, bulk_actions.
  destruct (own_bulk_actions self) as [l|] eqn:E; cbn; rewrite ?E; cbn; repeat split.
Qed.

(** One [send], seen through the attribute lookup of the same instance:
    the action joins the pending batch, and a batch that has reached the
    batch size is sent whole and replaced by an empty one. *)
Lemma send_view event w self :
  let a := make_action self event in
  let r := send event w self in
  let full := negb (Z.of_nat (length (bulk_actions w self ++ [a])) <? _bulk_batch_size w) in
  bulk_actions (fst r) (snd r) = (if full then [] else bulk_actions w self ++ [a])
  /\ es_bulk_calls (fst r)
     = es_bulk_calls w ++ (if full then [bulk_actions w self ++ [a]] else [])
  /\ _bulk_batch_size (fst r) = _bulk_batch_size w
  /\ _dataset (snd r) = _dataset self
  /\ _namespace (snd r) = _namespace self
  /\ _es_index (snd r) = _es_index self.
Proof.
  cbv zeta. unfold send.
  pose proof (append_bulk_action_view (make_action self event) w self) as V.
  cbv zeta in V.
  destruct (append_bulk_action (make_action self event) w self) as [w1 s1].
  cbn [fst snd] in V. destruct V as (Vp & Vc & Vb & Vd & Vn & Vi).
  rewrite Vp, Vb.
  destruct (Z.of_nat (length (bulk_actions w self ++ [make_action self event]))
            <? _bulk_batch_size w); cbn [negb fst snd].
  - rewrite app_nil_r. repeat split; assumption.
  - unfold es_bulk, reset_bulk_actions, bulk_actions; cbn. rewrite Vc.
    repeat split; assumption.
Qed.

Lemma make_action_settings self self' event :
  _dataset self' = _dataset self -> _namespace self' = _namespace self ->
  _es_index self' = _es_index self ->
  make_action self' event = make_action self event.
Proof. intros D N I. unfold make_action. now rewrite D, N, I. Qed.

(** The state a run of [send]s reaches, in full: nothing is lost or
    reordered by [send]; every request it makes has exactly the batch
    size; their number and the size of the pending batch follow from the
    number of events. *)
Lemma send_all_view events w self :
  1 <= _bulk_batch_size w ->
  Z.of_nat (length (bulk_actions w self)) < _bulk_batch_size w ->
  let r := send_all events w self in
  let total := Z.of_nat (length (bulk_actions w self)) + Z.of_nat (length events) in
  exists batches,
    es_bulk_calls (fst r) = es_bulk_calls w ++ batches
    /\ Forall (fun b => Z.of_nat (length b) = _bulk_batch_size w) batches
    /\ Z.of_nat (length batches) = total / _bulk_batch_size w
    /\ Z.of_nat (length (bulk_actions (fst r) (snd r))) = total mod _bulk_batch_size w
    /\ concat batches ++ bulk_actions (fst r) (snd r)
       = bulk_actions w self ++ List.map (make_action self) events
    /\ _bulk_batch_size (fst r) = _bulk_batch_size w.
Proof.
  revert w self. induction events as [|event events IH]; intros w self HB Hp; cbv zeta.
  - exists []. cbn [send_all fst snd length List.map concat app].
    rewrite !app_nil_r, Z.add_0_r.
    rewrite Z.div_small, Z.mod_small by lia. repeat split; constructor.
  - cbn [send_all].
    pose proof (send_view event w self) as V. cbv zeta in V.
    destruct (send event w self) as [w1 s1]. cbn [fst snd] in V.
    destruct V as (Vp & Vc & Vb & Vd & Vn & Vi).
    assert (HB1 : 1 <= _bulk_batch_size w1) by lia.
    rewrite length_app in Vp, Vc. cbn [length] in Vp, Vc.
    destruct (Z.of_nat (length (bulk_actions w self) + 1) <? _bulk_batch_size w) eqn:Hlt;
      cbn [negb] in Vp, Vc.
    + apply Z.ltb_lt in Hlt.
      assert (Hp1 : Z.of_nat (length (bulk_actions w1 s1)) < _bulk_batch_size w1)
        by (rewrite Vp, Vb, length_app; cbn [length]; lia).
      destruct (IH w1 s1 HB1 Hp1) as (batches & Ec & Ef & En & Em & Ek & Eb).
      cbv zeta in *. exists batches. rewrite Vb in *.
      rewrite Vc, app_nil_r in Ec.
      rewrite Vp, length_app in En, Em. cbn [length] in En, Em.
      split; [assumption|]. split; [assumption|].
      split; [rewrite En; f_equal; cbn [length]; lia|].
      split; [rewrite Em; f_equal; cbn [length]; lia|].
      split; [|assumption].
      rewrite Ek, Vp. cbn [List.map]. rewrite <- app_assoc. cbn [app].
      f_equal. f_equal. apply List.map_ext. intros e.
      now apply make_action_settings.
    + apply Z.ltb_ge in Hlt.
      assert (Hfull : Z.of_nat (length (bulk_actions w self) + 1) = _bulk_batch_size w) by lia.
      assert (Hp1 : Z.of_nat (length (bulk_actions w1 s1)) < _bulk_batch_size w1)
        by (rewrite Vp, Vb; cbn [length]; lia).
      destruct (IH w1 s1 HB1 Hp1) as (batches & Ec & Ef & En & Em & Ek & Eb).
      cbv zeta in *. rewrite Vb in *.
      exists ((bulk_actions w self ++ [make_action self event]) :: batches).
      rewrite Vp in En, Em, Ek. cbn [length app] in En, Em, Ek.
      change (Z.of_nat 0) with 0 in En, Em. rewrite Z.add_0_l in En, Em.
      replace (Z.of_nat (length (bulk_actions w self)) + Z.of_nat (length (event :: events)))
        with (Z.of_nat (length events) + 1 * _bulk_batch_size w) by (cbn [length]; lia).
      rewrite Z.div_add, Z.mod_add by lia.
      split; [rewrite Ec, Vc, <- app_assoc; reflexivity|].
      split; [constructor; [rewrite length_app; cbn [length]; lia|assumption]|].
      split; [cbn [length]; rewrite Nat2Z.inj_succ, En; lia|].
      split; [assumption|].
      split; [|assumption].
      cbn [concat List.map]. rewrite <- !app_assoc. cbn [app]. do 2 f_equal.
      rewrite Ek. apply List.map_ext. intros e. now apply make_action_settings.
Qed.

Lemma written_es_bulk actions w : written (es_bulk actions w) = written w ++ actions.
Proof. unfold written, es_bulk. cbn. rewrite concat_app. cbn. now rewrite app_nil_r. Qed.

(** One [send] neither loses nor reorders: what has been written plus
    what is pending grows by exactly the new action, at the end. *)
Lemma send_conserves event w self :
  written (fst (send event w self))
  ++ bulk_actions (fst (send event w self)) (snd (send event w self))
  = written w ++ bulk_actions w self ++ [make_action self event].
Proof.
  pose proof (send_view event w self) as V. cbv zeta in V.
  destruct V as (Vp & Vc & _). unfold written. rewrite Vp, Vc, concat_app.
  destruct (negb _); cbn [concat]; rewrite ?app_nil_r, <- ?app_assoc; reflexivity.
Qed.

(** X1.  However many events are sent, whatever the batch size and the
    state before: the documents written so far followed by the pending
    batch are the ones written and pending before, followed by the
    actions of the events sent, in the order they were sent.  [send]
    alone never loses, repeats or reorders an event. *)
Theorem send_all_conserves events w self :
  written (fst (send_all events w self))
  ++ bulk_actions (fst (send_all events w self)) (snd (send_all events w self))
  = written w ++ bulk_actions w self ++ List.map (make_action self) events.
Proof.
  revert w self. induction events as [|event events IH]; intros w self.
  - cbn [send_all fst snd List.map]. now rewrite app_nil_r.
  - cbn [send_all].
    pose proof (send_conserves event w self) as C.
    pose proof (send_view event w self) as V. cbv zeta in V.
    destruct V as (_ & _ & _ & Vd & Vn & Vi).
    destruct (send event w self) as [w1 s1]. cbn [fst snd] in *.
    rewrite IH, app_assoc, C. cbn [List.map]. rewrite <- !app_assoc. cbn [app].
    do 3 f_equal. apply List.map_ext. intros e. now apply make_action_settings.
Qed.

(** X2.  With a batch size of at least 1 and fewer pending actions than
    that, a run of [send]s issues only full batches: every bulk request
    it makes carries exactly [_bulk_batch_size] actions, it makes
    (pending + events) div size of them, and (pending + events) mod size
    actions stay pending. *)
Theorem send_all_batches events w self :
  1 <= _bulk_batch_size w ->
  Z.of_nat (length (bulk_actions w self)) < _bulk_batch_size w ->
  let r := send_all events w self in
  let total := Z.of_nat (length (bulk_actions w self)) + Z.of_nat (length events) in
  exists batches,
    es_bulk_calls (fst r) = es_bulk_calls w ++ batches
    /\ Forall (fun b => Z.of_nat (length b) = _bulk_batch_size w) batches
    /\ Z.of_nat (length batches) = total / _bulk_batch_size w
    /\ Z.of_nat (length (bulk_actions (fst r) (snd r))) = total mod _bulk_batch_size w.
Proof.
  intros HB Hp. destruct (send_all_view events w self HB Hp) as (batches & E1 & E2 & E3 & E4 & _).
  exists batches. cbv zeta in *. repeat split; assumption.
Qed.

Lemma app_last_inv {A} (l m all : list A) (x : A) :
  all <> [] -> l ++ [x] = m ++ all -> l = m ++ removelast all.
Proof.
  intros Hne E. destruct (exists_last Hne) as (all' & z & ->).
  rewrite removelast_last. rewrite app_assoc in E. now apply app_inj_tail in E.
Qed.

(** X3.  A run of [send]s that starts with an empty batch, followed by
    [flush], leaves the batch empty and has written every event, in
    order - except when the number of events is 1 modulo the batch size:
    then exactly the last event is missing from what was written. *)
Theorem send_all_then_flush events w self :
  1 <= _bulk_batch_size w ->
  bulk_actions w self = [] ->
  let sent := send_all events w self in
  let flushed := flush (fst sent) (snd sent) in
  bulk_actions (fst flushed) (snd flushed) = []
  /\ written (fst flushed)
     = written w
       ++ (if Z.of_nat (length events) mod _bulk_batch_size w =? 1
           then removelast (List.map (make_action self) events)
           else List.map (make_action self) events).
Proof.
  intros HB He. cbv zeta.
  assert (Hp : Z.of_nat (length (bulk_actions w self)) < _bulk_batch_size w)
    by (rewrite He; cbn; lia).
  destruct (send_all_view events w self HB Hp) as (batches & Ec & _ & _ & Em & Ek & _).
  assert (C : written (fst (send_all events w self))
              ++ bulk_actions (fst (send_all events w self)) (snd (send_all events w self))
              = written w ++ bulk_actions w self ++ List.map (make_action self) events).
  { unfold written. cbv zeta in Ec, Ek. rewrite Ec, concat_app, <- app_assoc. now rewrite Ek. }
  cbv zeta in Em. rewrite He in Em, C. cbn [length app] in Em, C.
  change (Z.of_nat 0) with 0 in Em. rewrite Z.add_0_l in Em.
  destruct (send_all events w self) as [w1 s1]. cbn [fst snd] in *.
  split; [reflexivity|]. unfold flush. cbn [fst].
  rewrite <- Em.
  destruct (bulk_actions w1 s1) as [|a [|b pending]] eqn:Ep; cbn [length].
  - cbn. now rewrite app_nil_r in C.
  - change (Z.of_nat 1 =? 1) with true. change (1 <? Z.of_nat 1) with false. cbv iota.
    assert (Hne : List.map (make_action self) events <> []).
    { destruct events; [|discriminate]. cbn in Em. discriminate. }
    exact (app_last_inv _ _ _ _ Hne C).
  - replace (1 <? Z.of_nat (S (S (length pending)))) with true
      by (symmetry; apply Z.ltb_lt; lia).
    replace (Z.of_nat (S (S (length pending))) =? 1) with false
      by (symmetry; apply Z.eqb_neq; lia).
    now rewrite written_es_bulk.
Qed.

(** X4.  The pending list is a class attribute until an instance assigns
    its own.  So an event sent through one such instance (and not yet
    written) is pending for every other instance that has no list of its
    own; and a batch flushed by one instance stays in the class list,
    where the [flush] of the next such instance finds it and writes it
    a second time. *)
Theorem class_list_is_shared w first second :
  own_bulk_actions first = None -> own_bulk_actions second = None ->
  (forall event,
      Z.of_nat (length (class_bulk_actions w)) + 1 < _bulk_batch_size w ->
      bulk_actions (fst (send event w first)) second
      = bulk_actions w second ++ [make_action first event])
  /\ ((2 <= length (class_bulk_actions w))%nat ->
      let once := flush w first in
      let twice := flush (fst once) second in
      bulk_actions (fst once) (snd once) = []
      /\ es_bulk_calls (fst twice)
         = es_bulk_calls w ++ [class_bulk_actions w; class_bulk_actions w]).
Proof.
  intros H1 H2. split.
  - intros event Hlt. unfold send, append_bulk_action, bulk_actions.
    rewrite H1, H2. cbn [default from_option id].
    rewrite H1. cbn [default from_option id class_bulk_actions _bulk_batch_size].
    rewrite length_app. cbn [length].
    replace (Z.of_nat (length (class_bulk_actions w) + 1) <? _bulk_batch_size w) with true
      by (symmetry; apply Z.ltb_lt; lia).
    reflexivity.
  - intros Hn. cbv zeta. unfold flush, bulk_actions.
    rewrite H1, H2. cbn [default from_option id fst snd reset_bulk_actions own_bulk_actions].
    replace (1 <? Z.of_nat (length (class_bulk_actions w))) with true
      by (symmetry; apply Z.ltb_lt; lia).
    cbn [es_bulk class_bulk_actions es_bulk_calls].
    replace (1 <? Z.of_nat (length (class_bulk_actions w))) with true
      by (symmetry; apply Z.ltb_lt; lia).
    cbn [es_bulk class_bulk_actions es_bulk_calls]. split; [reflexivity|].
    now rewrite <- app_assoc.
Qed.

End ShipperBatching.

Lemma send_all_batches_witness :
  Z.of_nat (length (es.bulk_actions
                      (fst (es.send_all es.example_events (es.example_store 2)
                                        (es.ElasticsearchShipper_init "generic" "default")))
                      (snd (es.send_all es.example_events (es.example_store 2)
                                        (es.ElasticsearchShipper_init "generic" "default")))))
  = 1.
Proof.
  destruct (send_all_batches es.example_events (es.example_store 2)
              (es.ElasticsearchShipper_init "generic" "default")
              ltac:(cbn; lia) ltac:(cbn; lia)) as (batches & _ & _ & _ & E).
  exact E.
Defined.

Lemma send_all_then_flush_witness :
  es.written
    (fst (es.flush
            (fst (es.send_all es.example_events (es.example_store 2)
                              (es.ElasticsearchShipper_init "generic" "default")))
            (snd (es.send_all es.example_events (es.example_store 2)
                              (es.ElasticsearchShipper_init "generic" "default")))))
  = List.map (es.make_action (es.ElasticsearchShipper_init "generic" "default"))
             [es.example_event 0; es.example_event 6].
Proof.
  exact (proj2 (send_all_then_flush es.example_events (es.example_store 2)
                  (es.ElasticsearchShipper_init "generic" "default")
                  ltac:(cbn; lia) eq_refl)).
Defined.

Lemma class_list_is_shared_witness :
  es.es_bulk_calls
    (fst (es.flush
            (fst (es.flush
                    (fst (es.send_all [es.example_event 0; es.example_event 6] es.initial_store
                                      (es.ElasticsearchShipper_init "generic" "default")))
                    (es.ElasticsearchShipper_init "generic" "default")))
            (es.ElasticsearchShipper_init "other" "default")))
  = [List.map (es.make_action (es.ElasticsearchShipper_init "generic" "default"))
              [es.example_event 0; es.example_event 6];
     List.map (es.make_action (es.ElasticsearchShipper_init "generic" "default"))
              [es.example_event 0; es.example_event 6]].
Proof.
  exact (proj2 (proj2 (class_list_is_shared
                  (fst (es.send_all [es.example_event 0; es.example_event 6] es.initial_store
                                    (es.ElasticsearchShipper_init "generic" "default")))
                  (es.ElasticsearchShipper_init "generic" "default")
                  (es.ElasticsearchShipper_init "other" "default")
                  eq_refl eq_refl) ltac:(vm_compute; lia))).
Defined.

(** * The identifier: reading the offset back *)
Section ShipperIdentifier.
Import sqs_trigger es.
Local Open Scope string_scope.
Local Open Scope Z_scope.

Lemma digit_char_value (d : Z) :
  0 <= d < 10 -> Z.of_N (N_of_ascii (digit_char d)) - 48 = d.
Proof.
  intros Hd. unfold digit_char. rewrite N_ascii_embedding by lia.
  rewrite Z2N.id by lia. lia.
Qed.

Lemma digit_char_not_minus (d : Z) : 0 <= d < 10 -> digit_char d <> "-"%char.
Proof.
  intros Hd E. apply (f_equal N_of_ascii) in E. unfold digit_char in E.
  rewrite N_ascii_embedding in E by lia. cbn in E. lia.
Qed.

Lemma digits_value_app (acc : Z) (s t : string) :
  digits_value acc (s +:+ t) = digits_value (digits_value acc s) t.
Proof.
  revert acc. induction s as [|c s IH]; intros acc;
    rewrite ?append_nil, ?append_cons; cbn [digits_value]; [reflexivity|apply IH].
Qed.

Lemma zeros_value (k : nat) : digits_value 0 (zeros k) = 0.
Proof. induction k as [|k IH]; [reflexivity|exact IH]. Qed.

Lemma decimal_value (n : Z) : 0 <= n -> digits_value 0 (decimal n) = n.
Proof.
  intros Hn. revert Hn. pattern n. apply (well_founded_induction (Z.lt_wf 0)).
  clear n. intros n IH Hn.
  destruct (Z_lt_le_dec n 10) as [Hs|Hb].
  - rewrite decimal_small by lia. cbn [digits_value].
    rewrite digit_char_value by lia. lia.
  - rewrite decimal_step by lia. rewrite digits_value_app.
    assert (Hq : 0 <= n / 10 < n)
      by (split; [apply Z.div_pos; lia|apply Z.div_lt; lia]).
    rewrite IH by lia. cbn [digits_value].
    rewrite digit_char_value by (apply Z.mod_pos_bound; lia).
    symmetry. apply Z.div_mod. lia.
Qed.

Lemma decimal_head (n : Z) :
  0 <= n -> exists d rest, 0 <= d < 10 /\ decimal n = String (digit_char d) rest.
Proof.
  intros Hn. revert Hn. pattern n. apply (well_founded_induction (Z.lt_wf 0)).
  clear n. intros n IH Hn.
  destruct (Z_lt_le_dec n 10) as [Hs|Hb].
  - exists n, "". split; [lia|]. now apply decimal_small.
  - assert (Hq : 0 <= n / 10 < n)
      by (split; [apply Z.div_pos; lia|apply Z.div_lt; lia]).
    destruct (IH (n / 10) Hq ltac:(lia)) as (d & rest & Hd & E).
    exists d, (rest +:+ String (digit_char (n mod 10)) "").
    split; [assumption|]. rewrite decimal_step by lia. now rewrite E.
Qed.

(** The rendering of [format(offset, "012d")] reads back as the offset,
    whatever its sign and size. *)
Lemma format_012d_value (n : Z) : parse_offset (format_012d n) = n.
Proof.
  unfold format_012d. destruct (n <? 0) eqn:Hs.
  - apply Z.ltb_lt in Hs. rewrite append_cons, append_nil. cbn [parse_offset].
    rewrite digits_value_app, zeros_value, decimal_value by lia. lia.
  - apply Z.ltb_ge in Hs. rewrite append_nil, Z.abs_eq by lia.
    assert (V : digits_value 0 (zeros (12 - String.length "" - String.length (decimal n))
                                +:+ decimal n) = n)
      by (rewrite digits_value_app, zeros_value; now apply decimal_value).
    destruct (decimal_head n Hs) as (d & rest & Hd & E).
    destruct (12 - String.length "" - String.length (decimal n))%nat as [|k].
    + cbn [zeros] in *. rewrite append_nil in *. rewrite E in *.
      unfold parse_offset. pose proof (digit_char_not_minus d Hd) as Hm.
      destruct (digit_char d) as [[] [] [] [] [] [] [] []]; try exact V.
      now contradiction Hm.
    + cbn [zeros] in *. rewrite append_cons in *. exact V.
Qed.

(** X5.  Two events of one object (same bucket ARN and object key) get
    the same identifier only if they begin at the same offset: within an
    object, distinct beginning offsets never collide. *)
Theorem s3_object_id_offset_injective p q :
  fields_aws_s3_bucket_arn p = fields_aws_s3_bucket_arn q ->
  fields_aws_s3_object_key p = fields_aws_s3_object_key q ->
  _s3_object_id p = _s3_object_id q ->
  fields_log_offset p = fields_log_offset q.
Proof.
  intros Ha Hk E. unfold _s3_object_id in E. rewrite Ha, Hk in E.
  do 2 apply append_inv_head in E.
  apply (f_equal parse_offset) in E. now rewrite !format_012d_value in E.
Qed.

(** X6.  For a beginning offset in [0, 10^12) the identifier is exactly
    23 characters long: 10 of hash prefix, the dash, 12 digits. *)
Theorem s3_object_id_length p :
  0 <= fields_log_offset p < 10 ^ 12 ->
  String.length (_s3_object_id p) = 23%nat.
Proof.
  intros Ho. unfold _s3_object_id. rewrite !append_length.
  rewrite substring_prefix_length by (rewrite sha256_hexdigest_length; lia).
  rewrite format_012d_nonneg by lia.
  rewrite (zero_pad_fixed_width 11) by (change (10 ^ Z.of_nat 12) with (10 ^ 12); lia).
  now rewrite fixed_width_length.
Qed.

End ShipperIdentifier.

Lemma s3_object_id_offset_injective_witness :
  sqs_trigger.fields_log_offset (es.example_event 6)
  = sqs_trigger.fields_log_offset
      (sqs_trigger.make_event "eu-west-1" "logs" "arn:aws:s3:::logs" "app/2021.log" "other" 6).
Proof.
  apply (s3_object_id_offset_injective (es.example_event 6)
           (sqs_trigger.make_event "eu-west-1" "logs" "arn:aws:s3:::logs" "app/2021.log"
                                   "other" 6)
           eq_refl eq_refl).
  reflexivity.
Defined.

Lemma s3_object_id_length_witness :
  String.length (es._s3_object_id (es.example_event 13)) = 23%nat.
Proof.
  apply (s3_object_id_length (es.example_event 13)). cbn. lia.
Defined.

(** * The filter: equality, construction errors, repeated use *)
Section FilterMore.
Import hyperscan include_exlude.
Context `{Engine}.

Lemma optional_rule_eq_built a b :
  optional_rule_eq (rule_of a) (rule_of b)
  = if negb (Bool.eqb (configured a) (configured b)) then Raise AssertionError
    else Ok (bool_decide (default [] a = default [] b)).
Proof.
  unfold rule_of.
  destruct a as [[|pa la]|], b as [[|pb lb]|];
    cbn [configured Bool.eqb negb optional_rule_eq IncludeExcludeRule_eq patterns
         default from_option id]; try reflexivity.
Qed.

(** X7.  [==] on two filters built by the constructor.  It raises
    AssertionError when one filter has include rules and the other has
    none; otherwise it is False when the include lists differ (the
    exclude side is then not looked at); otherwise it raises
    AssertionError when one has exclude rules and the other has none,
    and else tells whether the exclude lists are equal.  It answers True
    exactly when the two filters are the same. *)
Theorem filter_eq_built inc1 exc1 inc2 exc2 f1 f2 :
  fst (IncludeExcludeFilter_init inc1 exc1) = Ok f1 ->
  fst (IncludeExcludeFilter_init inc2 exc2) = Ok f2 ->
  IncludeExcludeFilter_eq f1 f2
  = (if negb (Bool.eqb (configured inc1) (configured inc2)) then Raise AssertionError
     else if negb (bool_decide (default [] inc1 = default [] inc2)) then Ok false
     else if negb (Bool.eqb (configured exc1) (configured exc2)) then Raise AssertionError
     else Ok (bool_decide (default [] exc1 = default [] exc2)))
  /\ (IncludeExcludeFilter_eq f1 f2 = Ok true <-> f1 = f2).
Proof.
  intros H1 H2. apply init_ok in H1, H2.
  assert (E : IncludeExcludeFilter_eq f1 f2
              = (if negb (Bool.eqb (configured inc1) (configured inc2)) then Raise AssertionError
                 else if negb (bool_decide (default [] inc1 = default [] inc2)) then Ok false
                 else if negb (Bool.eqb (configured exc1) (configured exc2))
                      then Raise AssertionError
                      else Ok (bool_decide (default [] exc1 = default [] exc2)))).
  { subst f1 f2. unfold IncludeExcludeFilter_eq. cbn [_include_rules _exclude_rules].
    rewrite !optional_rule_eq_built.
    destruct (negb (Bool.eqb (configured inc1) (configured inc2))); [reflexivity|].
    now destruct (bool_decide (default [] inc1 = default [] inc2)). }
  split; [exact E|]. rewrite E. subst f1 f2. split.
  - destruct (Bool.eqb (configured inc1) (configured inc2)) eqn:Ci; cbn [negb]; [|discriminate].
    destruct (bool_decide (default [] inc1 = default [] inc2)) eqn:Di; cbn [negb]; [|discriminate].
    destruct (Bool.eqb (configured exc1) (configured exc2)) eqn:Ce; cbn [negb]; [|discriminate].
    intros De. injection De as De.
    apply bool_decide_eq_true in Di, De. apply Bool.eqb_prop in Ci, Ce.
    unfold rule_of. now rewrite Ci, Ce, Di, De.
  - intros E'. injection E' as Ri Re Ya Yi Ye.
    assert (Ci : configured inc1 = configured inc2).
    { unfold rule_of in Ri. destruct (configured inc1), (configured inc2); congruence. }
    assert (Ce : configured exc1 = configured exc2).
    { unfold rule_of in Re. destruct (configured exc1), (configured exc2); congruence. }
    assert (Di : default [] inc1 = default [] inc2).
    { unfold rule_of in Ri. rewrite <- Ci in Ri. destruct (configured inc1) eqn:C1.
      - now injection Ri.
      - destruct inc1 as [[|]|], inc2 as [[|]|]; cbn in *; congruence. }
    assert (De : default [] exc1 = default [] exc2).
    { unfold rule_of in Re. rewrite <- Ce in Re. destruct (configured exc1) eqn:C1.
      - now injection Re.
      - destruct exc1 as [[|]|], exc2 as [[|]|]; cbn in *; congruence. }
    rewrite Ci, Ce, Di, De, !Bool.eqb_reflx. cbn [negb].
    now rewrite !bool_decide_eq_true_2.
Qed.

Lemma is_included_configuration a b message :
  same_configuration a b ->
  fst (fst (_is_included a message)) = fst (fst (_is_included b message))
  /\ snd (_is_included a message) = snd (_is_included b message)
  /\ same_configuration (snd (fst (_is_included a message))) a.
Proof.
  intros (Hi & He & Hy & Hio & Heo). unfold _is_included. rewrite <- Hi.
  destruct (_include_rules a) as [r|] eqn:Er; [|repeat split; now rewrite ?Er].
  cbn [set_is_included_matched _is_included_matched].
  destruct (scan (hyperscan_db r) (encode_utf8 message) on_match false) as [m [u|e]];
    cbn [fst snd set_is_included_matched _is_included_matched];
    repeat split; cbn; now rewrite ?Er.
Qed.

Lemma is_excluded_configuration a b message :
  same_configuration a b ->
  fst (fst (_is_excluded a message)) = fst (fst (_is_excluded b message))
  /\ snd (_is_excluded a message) = snd (_is_excluded b message)
  /\ same_configuration (snd (fst (_is_excluded a message))) a.
Proof.
  intros (Hi & He & Hy & Hio & Heo). unfold _is_excluded. rewrite <- He.
  destruct (_exclude_rules a) as [r|] eqn:Er; [|repeat split; now rewrite ?Er].
  cbn [set_is_excluded_matched _is_excluded_matched].
  destruct (scan (hyperscan_db r) (encode_utf8 message) on_match false) as [m [u|e]];
    cbn [fst snd set_is_excluded_matched _is_excluded_matched];
    repeat split; cbn; now rewrite ?Er.
Qed.

Lemma same_configuration_refl a : same_configuration a a.
Proof. unfold same_configuration. tauto. Qed.

Lemma same_configuration_trans a b c :
  same_configuration a b -> same_configuration b c -> same_configuration a c.
Proof. unfold same_configuration. intuition congruence. Qed.

Lemma same_configuration_sym a b : same_configuration a b -> same_configuration b a.
Proof. unfold same_configuration. intuition congruence. Qed.

(** The value and the engine calls of [filter] depend on the
    configuration only, not on the two match flags; and [filter] leaves
    the configuration as it is. *)
Lemma filter_configuration a b message :
  same_configuration a b ->
  fst (fst (filter a message)) = fst (fst (filter b message))
  /\ snd (filter a message) = snd (filter b message)
  /\ same_configuration (snd (fst (filter a message))) a.
Proof.
  intros S. pose proof S as (Hi & He & Hy & Hio & Heo). unfold filter.
  rewrite <- Hy, <- Hio, <- Heo.
  destruct (_always_yield a); [repeat split; reflexivity|].
  destruct (_include_only a); [now apply is_included_configuration|].
  pose proof (is_excluded_configuration a b message S) as (V & L & K).
  pose proof (is_excluded_configuration b b message (same_configuration_refl b)) as (_ & _ & Kb).
  destruct (_is_excluded a message) as [[ra sa] la].
  destruct (_is_excluded b message) as [[rb sb] lb].
  cbn [fst snd] in V, L, K, Kb. subst rb lb.
  destruct (_exclude_only a).
  - destruct ra as [x|e]; cbn [fst snd]; (split; [reflexivity|split; [reflexivity|assumption]]).
  - destruct ra as [[|]|e]; cbn [fst snd];
      try (split; [reflexivity|split; [reflexivity|assumption]]).
    assert (S' : same_configuration sa sb).
    { eapply same_configuration_trans; [exact K|].
      eapply same_configuration_trans; [exact S|].
      now apply same_configuration_sym. }
    pose proof (is_included_configuration sa sb message S') as (V2 & L2 & K2).
    destruct (_is_included sa message) as [[r2 s2] l2].
    destruct (_is_included sb message) as [[r2' s2'] l2'].
    cbn [fst snd] in *. subst. split; [reflexivity|]. split; [reflexivity|].
    eapply same_configuration_trans; eassumption.
Qed.

(** X8.  [filter] keeps no memory.  Whatever state the filter object is
    in, and whatever message it filtered before, the value it returns
    for a message and the scans it makes are those a filter that had
    never been used would return and make: the two match flags it
    updates are reset before every scan. *)
Theorem filter_keeps_no_memory self earlier message :
  filter_value (snd (fst (filter self earlier))) message = filter_value self message
  /\ filter_calls (snd (fst (filter self earlier))) message = filter_calls self message.
Proof.
  pose proof (filter_configuration self self earlier (same_configuration_refl self))
    as (_ & _ & K).
  pose proof (filter_configuration _ _ message K) as (V & L & _).
  unfold filter_value, filter_calls. split; assumption.
Qed.

(** X9.  The constructor fails only by [hyperscan.error], and exactly
    when a configured list does not compile; the unpacking error of an
    empty pattern list cannot occur.  When the include list does not
    compile the exclude list is never handed to the engine. *)
Theorem filter_init_errors inc exc :
  ((exists f, fst (IncludeExcludeFilter_init inc exc) = Ok f)
   <-> (configured inc = true -> compiles (hyperscan_patterns 0 (default [] inc)) = true)
       /\ (configured exc = true -> compiles (hyperscan_patterns 0 (default [] exc)) = true))
  /\ (forall e, fst (IncludeExcludeFilter_init inc exc) = Raise e -> e = HyperscanError)
  /\ (configured inc = true ->
      compiles (hyperscan_patterns 0 (default [] inc)) = false ->
      IncludeExcludeFilter_init inc exc
      = (Raise HyperscanError, [Compile (hyperscan_patterns 0 (default [] inc))])).
Proof.
  assert (O : forall ps,
             optional_rules ps
             = if configured ps
               then if compiles (hyperscan_patterns 0 (default [] ps))
                    then (Ok (rule_of ps), [Compile (hyperscan_patterns 0 (default [] ps))])
                    else (Raise HyperscanError,
                          [Compile (hyperscan_patterns 0 (default [] ps))])
               else (Ok None, [])).
  { intros [[|p l]|]; try reflexivity.
    unfold optional_rules, IncludeExcludeRule_init, rule_of.
    replace (0 <? Z.of_nat (length (p :: l))) with true
      by (symmetry; apply Z.ltb_lt; simpl length; lia).
    cbn [configured default from_option id hyperscan_patterns].
    now destruct (compiles _). }
  unfold IncludeExcludeFilter_init. rewrite !O.
  destruct (configured inc) eqn:Ci, (configured exc) eqn:Ce;
    repeat match goal with |- context [compiles ?d] => destruct (compiles d) eqn:? end;
    cbn [fst snd]; (split; [split|split]);
    try (intros [f Hf]; discriminate);
    try (intros; eexists; reflexivity);
    try (intros [A B]; try specialize (A eq_refl); try specialize (B eq_refl); discriminate);
    try (intros e E; congruence);
    try (intros; split; intros; congruence);
    try (intros; congruence);
    try reflexivity.
Qed.

(** X10.  On a filter built by the constructor [filter] always returns
    a boolean: the asserts of [_is_included] and [_is_excluded] never
    fail.  It scans the exclude list first, if there is one, and the
    include list, if there is one, only when the exclude scan neither
    reported a match nor raised: at most two scans, in that order. *)
Theorem filter_total_and_ordered inc exc f message :
  fst (IncludeExcludeFilter_init inc exc) = Ok f ->
  (exists b, filter_value f message = Ok b)
  /\ filter_calls f message
     = (if configured exc then [scan_call (default [] exc) message] else [])
       ++ (if configured inc && negb (configured exc && scan_hit (default [] exc) message)
           then [scan_call (default [] inc) message] else [])
  /\ (length (filter_calls f message) <= 2)%nat.
Proof.
  intros Hf. pose proof (filter_calls_built _ _ _ message Hf) as L.
  split; [rewrite (filter_value_built _ _ _ message Hf); eauto|].
  split; [exact L|]. rewrite L.
  destruct (configured exc), (configured inc && _); cbn; lia.
Qed.

End FilterMore.

Lemma filter_eq_built_witness :
  exists f1 f2,
    fst (@include_exlude.IncludeExcludeFilter_init include_exlude.literal_engine
           (Some ["message"%string]) None) = Ok f1
    /\ fst (@include_exlude.IncludeExcludeFilter_init include_exlude.literal_engine
              None (Some ["message"%string])) = Ok f2
    /\ include_exlude.IncludeExcludeFilter_eq f1 f2 = Raise AssertionError.
Proof.
  eexists. eexists. split; [reflexivity|]. split; [reflexivity|].
  exact (proj1 (@filter_eq_built include_exlude.literal_engine
                  (Some ["message"%string]) None None (Some ["message"%string])
                  _ _ eq_refl eq_refl)).
Defined.

Lemma filter_total_and_ordered_witness :
  exists f,
    fst (@include_exlude.IncludeExcludeFilter_init include_exlude.literal_engine
           (Some ["message"%string]) (Some ["message"%string])) = Ok f
    /\ @include_exlude.filter_calls include_exlude.literal_engine f "a message"
       = [@include_exlude.scan_call ["message"%string] "a message"].
Proof.
  eexists. split; [reflexivity|].
  exact (proj1 (proj2 (@filter_total_and_ordered include_exlude.literal_engine
                         (Some ["message"%string]) (Some ["message"%string])
                         _ "a message"%string eq_refl))).
Defined.

(** * The driver: what is skipped, where events come from, how records compose *)
Section DriverMore.
Import sqs_trigger.
Context `{Storage}.

(** X11.  The loop over the stream, in full and for any stream: it
    skips every line that ends before the cursor, wherever the line
    stands (not only a prefix), and never decodes a skipped line; it
    yields the other lines in order, up to the first whose payload is not
    valid UTF-8, where it raises UnicodeDecodeError; with none such it
    finishes normally. *)
Theorem for_log_events_run region bucket arn key cursor n m lines :
  for_log_events region bucket arn key cursor n m lines
  = (List.map (yield_of region bucket arn key n m) (decodable_prefix (kept cursor lines)),
     if forallb decodable (kept cursor lines) then Ok tt else Raise UnicodeDecodeError).
Proof.
  induction lines as [|[[p b] e] lines IH]; [reflexivity|].
  assert (K : kept cursor ((p, b, e) :: lines)
              = if e <? cursor then kept cursor lines else (p, b, e) :: kept cursor lines).
  { unfold kept. cbn [List.filter]. unfold ending_of at 1. cbn [snd].
    now destruct (e <? cursor). }
  rewrite K. cbn [for_log_events].
  destruct (e <? cursor); [exact IH|].
  cbn [decodable_prefix forallb]. change (decodable (p, b, e)) with (utf8_well_formed p).
  unfold decode_utf8. destruct (utf8_well_formed p); [|reflexivity].
  rewrite IH. reflexivity.
Qed.

Lemma Forall_gseq {A B} (P : action -> Prop) (m : gen A) (k : gen B) :
  Forall P (fst m) -> Forall P (fst k) -> Forall P (fst (gseq m k)).
Proof.
  destruct m as [t [a|e]], k as [t' r]; cbn; intros Hm Hk; [|assumption].
  apply Forall_app. split; assumption.
Qed.

Lemma decodable_prefix_incl lines l : In l (decodable_prefix lines) -> In l lines /\ decodable l = true.
Proof.
  induction lines as [|x lines IH]; cbn; [tauto|].
  destruct (decodable x) eqn:D; cbn; [|tauto].
  intros [->|Hin]; [tauto|]. destruct (IH Hin). tauto.
Qed.

Lemma handle_s3_record_provenance n m r :
  Forall (from_record n m r) (fst (handle_s3_record n m r)).
Proof.
  unfold handle_s3_record. destruct (_ || _); [constructor|].
  apply Forall_gseq.
  - constructor; [|constructor]. now left.
  - rewrite for_log_events_run. cbn [fst]. apply List.Forall_forall. intros a Ha.
    apply in_map_iff in Ha as (l & <- & Hl).
    apply decodable_prefix_incl in Hl as [Hl _].
    unfold kept in Hl. apply filter_In in Hl as [Hl Hc].
    right. exists l. split; [assumption|]. split; [|reflexivity].
    apply negb_true_iff, Z.ltb_ge in Hc. exact Hc.
Qed.

Lemma for_s3_records_provenance n m rs :
  Forall (fun a => exists j r, rs !! j = Some r /\ from_record n (m + j) r a)
         (fst (for_s3_records n m rs)).
Proof.
  revert m. induction rs as [|r rs IH]; intros m; [constructor|].
  cbn [for_s3_records]. apply Forall_gseq.
  - eapply Forall_impl; [apply handle_s3_record_provenance|].
    intros a Ha. exists 0%nat, r. split; [reflexivity|]. now rewrite Nat.add_0_r.
  - eapply Forall_impl; [apply IH|]. cbn beta.
    intros a (j & r' & Hj & Ha). exists (S j), r'. split; [exact Hj|].
    now replace (m + S j)%nat with (S m + j)%nat by lia.
Qed.

Lemma for_sqs_records_provenance cfg n event :
  Forall (from_notification cfg event n) (fst (for_sqs_records cfg n event)).
Proof.
  revert n. induction event as [|sr event IH]; intros n; [constructor|].
  cbn [for_sqs_records].
  destruct (config.get_input_by_type_and_id cfg "sqs" (eventSourceARN sr)) as [i|] eqn:Ei;
    [|constructor].
  apply Forall_gseq.
  - eapply Forall_impl; [apply (for_s3_records_provenance n 0)|]. cbn beta.
    intros a (j & r & Hj & Ha). exists 0%nat, sr, j, r.
    split; [reflexivity|]. split; [rewrite Ei; eauto|]. split; [exact Hj|].
    now rewrite Nat.add_0_r.
  - eapply Forall_impl; [apply IH|]. cbn beta.
    intros a (k & sr' & j & r & Hk & Hc & Hj & Ha). exists (S k), sr', j, r.
    split; [exact Hk|]. split; [exact Hc|]. split; [exact Hj|].
    now replace (n + S k)%nat with (S n + k)%nat by lia.
Qed.

(** X12.  Everything the generator does is accounted for by a record of
    the notification.  Each action of a run is, for some S3 record at
    position [j] of the body of the SQS record at position [i], whose
    input is configured: either the read of that record's object from
    that record's cursor, or the yield - with exactly the positions [i]
    and [j], the record's bucket, key and region, and the line's own
    offsets - of a line of the stream read for it that does not end
    before its cursor. *)
Theorem handle_sqs_event_provenance cfg event :
  Forall (from_notification cfg event 0) (fst (_handle_sqs_event cfg event)).
Proof. apply for_sqs_records_provenance. Qed.

Lemma for_sqs_records_app cfg n pre post :
  all_configured cfg pre = true ->
  for_sqs_records cfg n (pre ++ post)
  = gseq (for_sqs_records cfg n pre) (for_sqs_records cfg (n + length pre) post).
Proof.
  revert n. induction pre as [|sr pre IH]; intros n Hc; cbn [app for_sqs_records length].
  - rewrite gseq_gret_l. now rewrite Nat.add_0_r.
  - cbn [all_configured forallb] in Hc. apply andb_prop in Hc as [Hs Hc].
    apply bool_decide_eq_true in Hs as [i Hi]. rewrite Hi.
    rewrite (IH _ Hc), gseq_assoc.
    now replace (S n + length pre)%nat with (n + S (length pre))%nat by lia.
Qed.

(** X13.  SQS records are processed strictly in their listed order.
    When every record of [pre] has a configured input, the run over
    [pre ++ post] is the run over [pre], followed - only if that ended
    normally - by the run over [post] with the record positions counted
    on from the length of [pre]; if the run over [pre] raised, nothing
    of [post] is processed. *)
Theorem handle_sqs_event_app cfg pre post :
  all_configured cfg pre = true ->
  _handle_sqs_event cfg (pre ++ post)
  = gseq (_handle_sqs_event cfg pre) (for_sqs_records cfg (length pre) post)
  /\ (forall t e, _handle_sqs_event cfg pre = (t, Raise e) ->
                  _handle_sqs_event cfg (pre ++ post) = (t, Raise e)).
Proof.
  intros Hc. unfold _handle_sqs_event.
  pose proof (for_sqs_records_app cfg 0 pre post Hc) as E. cbn [Nat.add] in E.
  split; [exact E|]. intros t e Hr. now rewrite E, Hr.
Qed.

Lemma kept_all cursor lines :
  Forall (fun l => cursor <= ending_of l) lines -> kept cursor lines = lines.
Proof.
  unfold kept. induction 1 as [|l ls Hl _ IH]; [reflexivity|].
  cbn [List.filter]. replace (ending_of l <? cursor) with false
    by (symmetry; apply Z.ltb_ge; lia).
  cbn [negb]. now rewrite IH.
Qed.

Lemma decodable_all lines :
  Forall (fun l => decodable l = true) lines ->
  decodable_prefix lines = lines /\ forallb decodable lines = true.
Proof.
  induction 1 as [|l ls Hd _ IH]; [split; reflexivity|].
  destruct IH as [IH1 IH2]. cbn [decodable_prefix forallb].
  rewrite Hd, IH1, IH2. split; reflexivity.
Qed.

(** X14.  A record without cursor keys is processed from offset 0: the
    object is read with range start 0, and if no line of the stream ends
    at a negative offset and every payload is valid UTF-8, every line of
    the stream is yielded, in order. *)
Theorem handle_s3_record_without_cursor n m r :
  last_ending_offset r = None ->
  bucket_arn r <> EmptyString -> object_key r <> EmptyString ->
  let bucket_name := get_bucket_name_from_arn (bucket_arn r) in
  let lines := get_by_lines bucket_name (object_key r) 0 (default 0 (last_beginning_offset r)) in
  Forall (fun l => 0 <= ending_of l /\ decodable l = true) lines ->
  handle_s3_record n m r
  = (StorageRead bucket_name (object_key r) 0 (default 0 (last_beginning_offset r))
       :: List.map (yield_of (awsRegion r) bucket_name (bucket_arn r) (object_key r) n m) lines,
     Ok tt).
Proof.
  intros Hc Harn Hkey bucket_name lines Hl. unfold handle_s3_record.
  destruct (String.length (bucket_arn r) =? 0)%nat eqn:Ea;
    [apply string_length_zero in Ea; contradiction|].
  destruct (String.length (object_key r) =? 0)%nat eqn:Ek;
    [apply string_length_zero in Ek; contradiction|].
  cbn [orb]. rewrite Hc. cbn [default from_option id]. fold bucket_name lines.
  rewrite for_log_events_run.
  rewrite (kept_all 0 lines) by (eapply Forall_impl; [exact Hl|]; cbn beta; tauto).
  destruct (decodable_all lines) as [-> ->];
    [eapply Forall_impl; [exact Hl|]; cbn beta; tauto|].
  reflexivity.
Qed.

Lemma gseq_ok {A B} (m : gen A) (k : gen B) b :
  snd (gseq m k) = Ok b ->
  (exists a, snd m = Ok a) /\ snd k = Ok b /\ fst (gseq m k) = fst m ++ fst k.
Proof.
  destruct m as [t [a|e]], k as [t' r]; cbn; [|discriminate].
  intros ->. eauto.
Qed.

Lemma storage_reads_app t t' : storage_reads (t ++ t') = storage_reads t ++ storage_reads t'.
Proof. unfold storage_reads. apply List.filter_app. Qed.

Lemma handle_s3_record_reads n m r u :
  snd (handle_s3_record n m r) = Ok u ->
  storage_reads (fst (handle_s3_record n m r)) = [read_of r].
Proof.
  unfold handle_s3_record. destruct (_ || _); [discriminate|].
  intros Hok. apply gseq_ok in Hok as (_ & _ & ->).
  rewrite storage_reads_app, for_log_events_run. cbn [fst emit].
  unfold storage_reads at 2. unfold yield_of.
  induction (decodable_prefix _) as [|l ls IH]; [reflexivity|].
  cbn [List.map List.filter is_storage_read]. exact IH.
Qed.

Lemma for_s3_records_reads n m rs u :
  snd (for_s3_records n m rs) = Ok u ->
  storage_reads (fst (for_s3_records n m rs)) = List.map read_of rs.
Proof.
  revert m. induction rs as [|r rs IH]; intros m; [reflexivity|].
  cbn [for_s3_records]. intros Hok. apply gseq_ok in Hok as ([a Ha] & Hk & ->).
  rewrite storage_reads_app, (handle_s3_record_reads _ _ _ _ Ha), (IH _ Hk). reflexivity.
Qed.

Lemma for_sqs_records_reads cfg n event u :
  all_configured cfg event = true ->
  snd (for_sqs_records cfg n event) = Ok u ->
  storage_reads (fst (for_sqs_records cfg n event))
  = List.map read_of (concat (List.map body event)).
Proof.
  revert n. induction event as [|sr event IH]; intros n Hc; [reflexivity|].
  cbn [all_configured forallb] in Hc. apply andb_prop in Hc as [Hs Hc].
  apply bool_decide_eq_true in Hs as [i Hi].
  cbn [for_sqs_records]. rewrite Hi. intros Hok.
  apply gseq_ok in Hok as ([a Ha] & Hk & ->).
  rewrite storage_reads_app, (for_s3_records_reads _ _ _ _ Ha), (IH _ Hc Hk).
  cbn [List.map concat]. now rewrite List.map_app.
Qed.

(** X15.  On a run that ends normally over a notification all of whose
    SQS records have a configured input, the storage is read exactly
    once for each S3 record, in the listed order of the records, each
    time for that record's bucket and key from that record's cursor:
    no object is read twice and none is passed over. *)
Theorem handle_sqs_event_reads cfg event :
  all_configured cfg event = true ->
  snd (_handle_sqs_event cfg event) = Ok tt ->
  storage_reads (fst (_handle_sqs_event cfg event))
  = List.map read_of (concat (List.map body event)).
Proof. intros Hc Hok. exact (for_sqs_records_reads cfg 0 event tt Hc Hok). Qed.

End DriverMore.

Lemma handle_sqs_event_app_witness :
  @sqs_trigger._handle_sqs_event sqs_trigger.example_storage sqs_trigger.example_config
    ([sqs_trigger.example_known_record] ++ [sqs_trigger.example_known_record])
  = sqs_trigger.gseq
      (@sqs_trigger._handle_sqs_event sqs_trigger.example_storage sqs_trigger.example_config
         [sqs_trigger.example_known_record])
      (@sqs_trigger.for_sqs_records sqs_trigger.example_storage sqs_trigger.example_config 1
         [sqs_trigger.example_known_record]).
Proof.
  exact (proj1 (@handle_sqs_event_app sqs_trigger.example_storage sqs_trigger.example_config
                  [sqs_trigger.example_known_record] [sqs_trigger.example_known_record]
                  eq_refl)).
Defined.

Lemma handle_s3_record_without_cursor_witness :
  @sqs_trigger.handle_s3_record sqs_trigger.example_storage 0 0
    (sqs_trigger.example_s3_record None)
  = (sqs_trigger.StorageRead "logs" "app/2021.log" 0 0
       :: List.map (sqs_trigger.yield_of "eu-central-1" "logs" "arn:aws:s3:::logs"
                                         "app/2021.log" 0 0) sqs_trigger.example_lines,
     Ok tt).
Proof.
  apply (@handle_s3_record_without_cursor sqs_trigger.example_storage 0 0
           (sqs_trigger.example_s3_record None) eq_refl).
  - discriminate.
  - discriminate.
  - repeat constructor; cbn; lia.
Defined.

Lemma handle_sqs_event_reads_witness :
  sqs_trigger.storage_reads
    (fst (@sqs_trigger._handle_sqs_event sqs_trigger.example_storage sqs_trigger.example_config
            [sqs_trigger.example_known_record; sqs_trigger.example_known_record]))
  = [sqs_trigger.StorageRead "logs" "app/2021.log" 0 0;
     sqs_trigger.StorageRead "logs" "app/2021.log" 0 0].
Proof.
  exact (@handle_sqs_event_reads sqs_trigger.example_storage sqs_trigger.example_config
           [sqs_trigger.example_known_record; sqs_trigger.example_known_record]
           eq_refl eq_refl).
Defined.

(** * More of the code: share/config.py *)

(** ** The inputs a Config holds *)

Section ConfigStore.
Import config.
Local Open Scope string_scope.

(** What a lookup gives after [add_input] succeeded. *)
Lemma add_input_lookup (conf conf' : Config) (inp : Input) :
  add_input conf inp = Ok conf' ->
  get_input_by_type_and_id conf (input_type inp) (input_id inp) = None /\
  forall t i,
    get_input_by_type_and_id conf' t i =
    if bool_decide (t = input_type inp /\ i = input_id inp) then Some inp
    else get_input_by_type_and_id conf t i.
Proof.
  unfold add_input, get_input_by_type_and_id.
  destruct (_inputs conf !! input_type inp) as [by_id|] eqn:Et.
  - destruct (by_id !! input_id inp) as [x|] eqn:Ei; [discriminate|].
    intros [= <-]. split; [reflexivity|]. intros t i. cbn [_inputs].
    destruct (decide (t = input_type inp)) as [->|Ht].
    + rewrite lookup_insert_eq.
      destruct (decide (i = input_id inp)) as [->|Hi].
      * rewrite lookup_insert_eq. rewrite bool_decide_eq_true_2; [reflexivity|split; reflexivity].
      * rewrite lookup_insert_ne by congruence.
        rewrite bool_decide_eq_false_2 by (intros [_ ?]; congruence).
        rewrite Et. reflexivity.
    + rewrite lookup_insert_ne by congruence.
      rewrite bool_decide_eq_false_2 by (intros [? _]; congruence). reflexivity.
  - intros [= <-]. split; [reflexivity|]. intros t i. cbn [_inputs].
    destruct (decide (t = input_type inp)) as [->|Ht].
    + rewrite lookup_insert_eq, Et.
      destruct (decide (i = input_id inp)) as [->|Hi].
      * rewrite lookup_singleton_eq. rewrite bool_decide_eq_true_2; [reflexivity|split; reflexivity].
      * rewrite lookup_singleton_ne by congruence.
        rewrite bool_decide_eq_false_2 by (intros [_ ?]; congruence). reflexivity.
    + rewrite lookup_insert_ne by congruence.
      rewrite bool_decide_eq_false_2 by (intros [? _]; congruence). reflexivity.
Qed.


(** X16 (config.py, Config.add_input, Config.get_input_by_type_and_id):
    an input that [add_input] accepted is the one a lookup by its type
    and id returns, and the lookup of every other type and id is what it
    was before. *)
Theorem add_input_then_get (conf conf' : Config) (inp : Input) :
  add_input conf inp = Ok conf' ->
  get_input_by_type_and_id conf' (input_type inp) (input_id inp) = Some inp /\
  forall t i, (t, i) <> (input_type inp, input_id inp) ->
    get_input_by_type_and_id conf' t i = get_input_by_type_and_id conf t i.
Proof.
  intros H. destruct (add_input_lookup _ _ _ H) as [_ L]. split.
  - rewrite L. rewrite bool_decide_eq_true_2; [reflexivity|split; reflexivity].
  - intros t i Hne. rewrite L.
    rewrite bool_decide_eq_false_2; [reflexivity|]. intros [-> ->]. apply Hne. reflexivity.
Qed.

(** X17 (config.py, Config.add_input): [add_input] raises exactly when
    an input of the same type and id is already held, with a ValueError
    naming both; it never replaces an input. *)
Theorem add_input_never_replaces (conf : Config) (inp : Input) :
  match get_input_by_type_and_id conf (input_type inp) (input_id inp) with
  | Some _ =>
    add_input conf inp =
    Raise (ValueError ("duplicated input " +:+ input_type inp +:+ "/" +:+ input_id inp))
  | None =>
    exists conf', add_input conf inp = Ok conf' /\
      forall t i old, get_input_by_type_and_id conf t i = Some old ->
                      get_input_by_type_and_id conf' t i = Some old
  end.
Proof.
  destruct (get_input_by_type_and_id conf (input_type inp) (input_id inp)) as [x|] eqn:E.
  - unfold get_input_by_type_and_id in E. unfold add_input.
    destruct (_inputs conf !! input_type inp) as [by_id|]; [|discriminate].
    rewrite E. reflexivity.
  - assert (A : exists conf', add_input conf inp = Ok conf').
    { unfold get_input_by_type_and_id in E. unfold add_input.
      destruct (_inputs conf !! input_type inp) as [by_id|]; [|eexists; reflexivity].
      rewrite E. eexists; reflexivity. }
    destruct A as [conf' A]. exists conf'. split; [exact A|].
    destruct (add_input_lookup _ _ _ A) as [_ L]. intros t i old Hold. rewrite L.
    destruct (bool_decide (t = input_type inp /\ i = input_id inp)) eqn:B; [|exact Hold].
    apply bool_decide_eq_true in B. destruct B as [-> ->]. congruence.
Qed.

End ConfigStore.

(** ** Elasticsearch outputs and the outputs of an input *)

Section ConfigOutputs.
Import config.
Local Open Scope string_scope.

Lemma in_kwargs (x : string) :
  existsb (String.eqb x) _kwargs = true ->
  x = "elasticsearch_url" \/ x = "cloud_id" \/ x = "username" \/ x = "password" \/
  x = "api_key" \/ x = "dataset" \/ x = "namespace".
Proof.
  intros H. apply existsb_exists in H. destruct H as [k [Hin Hk]].
  apply String.eqb_eq in Hk. subst k. cbn in Hin. intuition congruence.
Qed.

(** One assignment of the loop leaves every other attribute alone. *)
Lemma setattr_getattr (o o1 : Output) (x : string) (v : yaml.value) :
  existsb (String.eqb x) _kwargs = true ->
  setattr o x v = py.Return o1 ->
  exists s, v = yaml.Str s /\ output_type o1 = output_type o /\
    forall k, getattr o1 k = if String.eqb k x then (if existsb (String.eqb k) _kwargs then s else "") else getattr o k.
Proof.
  intros Hx H. destruct v as [| | |s| |]; try discriminate. exists s.
  split; [reflexivity|].
  apply in_kwargs in Hx.
  destruct Hx as [->|[->|[->|[->|[->|[->| ->]]]]]]; cbn in H; injection H as <-;
    (split; [reflexivity|]); intros k; unfold getattr;
    repeat (match goal with |- context [String.eqb k ?c] =>
              destruct (String.eqb_spec k c) as [->|?] end; cbn; try reflexivity).
Qed.

Lemma lookup_absent (kw : list (string * yaml.value)) (k : string) :
  existsb (String.eqb k) (List.map fst kw) = false -> yaml.lookup kw k = None.
Proof.
  induction kw as [|[k0 v] kw IH]; [reflexivity|]. cbn. intros H.
  apply orb_false_iff in H. destruct H as [H1 H2].
  rewrite String.eqb_sym, H1. apply IH, H2.
Qed.

Lemma set_kwargs_getattr (keys : list string) (kw : list (string * yaml.value)) :
  forall o0 o, set_kwargs keys kw o0 = py.Return o ->
  output_type o = output_type o0 /\
  forall k, existsb (String.eqb k) _kwargs = true ->
    getattr o k = if existsb (String.eqb k) keys then given kw k else getattr o0 k.
Proof.
  induction keys as [|x rest IH]; intros o0 o H.
  - cbn in H. injection H as <-. split; [reflexivity|]. intros k _. reflexivity.
  - cbn [set_kwargs] in H.
    destruct (existsb (String.eqb x) _kwargs) eqn:Hx.
    + destruct (yaml.lookup kw x) as [v|] eqn:Ev; [|discriminate].
      destruct (setattr o0 x v) as [o1|e] eqn:Es; [|discriminate]. cbn [py.bind] in H.
      destruct (setattr_getattr _ _ _ _ Hx Es) as [s [-> [Ht G1]]].
      destruct (IH _ _ H) as [Ht' G]. split; [congruence|].
      intros k Hk. rewrite (G k Hk). cbn [existsb].
      destruct (String.eqb_spec k x) as [->|Hne].
      * cbn [orb]. unfold given. rewrite Ev.
        destruct (existsb (String.eqb x) rest); [reflexivity|].
        rewrite G1, String.eqb_refl, Hx. reflexivity.
      * cbn [orb]. destruct (existsb (String.eqb k) rest); [reflexivity|].
        rewrite G1. destruct (String.eqb_spec k x); [contradiction|reflexivity].
    + destruct (IH _ _ H) as [Ht' G]. split; [exact Ht'|].
      intros k Hk. rewrite (G k Hk). cbn [existsb].
      destruct (String.eqb_spec k x) as [->|Hne]; [congruence|reflexivity].
Qed.

(** The loop of the setter, run from the blank attributes over the keys
    of the mapping itself, leaves [loaded]. *)
Lemma set_kwargs_loaded (kw : list (string * yaml.value)) (o : Output) :
  set_kwargs (List.map fst kw) kw (set_output_type "elasticsearch" blank_output) = py.Return o ->
  o = loaded kw.
Proof.
  intros H. destruct (set_kwargs_getattr _ _ _ _ H) as [Ht G].
  assert (G' : forall k, existsb (String.eqb k) _kwargs = true -> getattr o k = given kw k).
  { intros k Hk. rewrite (G k Hk).
    destruct (existsb (String.eqb k) (List.map fst kw)) eqn:E; [reflexivity|].
    unfold given. rewrite (lookup_absent _ _ E).
    apply in_kwargs in Hk.
    destruct Hk as [->|[->|[->|[->|[->|[->| ->]]]]]]; reflexivity. }
  destruct o as [t u c n p a d ns]. unfold loaded. cbn in Ht. subst t.
  f_equal.
  - exact (G' "elasticsearch_url" eq_refl).
  - exact (G' "cloud_id" eq_refl).
  - exact (G' "username" eq_refl).
  - exact (G' "password" eq_refl).
  - exact (G' "api_key" eq_refl).
  - exact (G' "dataset" eq_refl).
  - exact (G' "namespace" eq_refl).
Qed.

Lemma ElasticSearchOutput_init_loaded (t : string) (kw : list (string * yaml.value)) (o : Output) :
  ElasticSearchOutput_init t kw = py.Return o ->
  t = "elasticsearch" /\ check_kwargs (loaded kw) = py.Return o.
Proof.
  unfold ElasticSearchOutput_init.
  destruct (String.eqb_spec t "elasticsearch") as [->|Hne]; [|discriminate].
  cbn [negb].
  destruct (set_kwargs _ kw _) as [o1|e] eqn:E; [|discriminate]. cbn [py.bind].
  apply set_kwargs_loaded in E. subst o1. intros H. split; [reflexivity|exact H].
Qed.

(** What the checks of the setter leave, whatever they started from. *)
Lemma check_kwargs_settled (o o' : Output) :
  check_kwargs o = py.Return o' ->
  output_type o' = output_type o /\
  nonempty (cloud_id o') = negb (nonempty (elasticsearch_url o')) /\
  nonempty (api_key o') = negb (nonempty (username o')) /\
  (nonempty (username o') = true -> nonempty (password o') = true) /\
  nonempty (dataset o') = true /\ nonempty (namespace o') = true.
Proof.
  destruct o as [t u c n p a d ns]. unfold check_kwargs. cbn.
  destruct c, u, n, a, p, d, ns; cbn; intros H; try discriminate;
    injection H as <-; cbn; repeat split; try reflexivity; try discriminate.
Qed.

Lemma check_kwargs_fixed (o : Output) :
  nonempty (cloud_id o) = negb (nonempty (elasticsearch_url o)) ->
  nonempty (api_key o) = negb (nonempty (username o)) ->
  (nonempty (username o) = true -> nonempty (password o) = true) ->
  nonempty (dataset o) = true -> nonempty (namespace o) = true ->
  check_kwargs o = py.Return o.
Proof.
  destruct o as [t u c n p a d ns]. unfold check_kwargs. cbn.
  destruct c, u, n, a, p, d, ns; cbn; intros H1 H2 H3 H4 H5;
    try discriminate; try reflexivity; specialize (H3 eq_refl); discriminate.
Qed.


Lemma output_settings_settled_aux (t : string) (kw : list (string * yaml.value)) (o : Output) :
  ElasticSearchOutput_init t kw = py.Return o -> output_type o = "elasticsearch" /\ t = "elasticsearch".
Proof.
  intros H. apply ElasticSearchOutput_init_loaded in H. destruct H as [-> H].
  apply check_kwargs_settled in H. destruct H as [H _]. split; [exact H|reflexivity].
Qed.

(** X18 (config.py, ElasticSearchOutput.__init__ and the kwargs setter):
    an output that was constructed is of type elasticsearch, has exactly
    one of cloud_id and elasticsearch_url, exactly one of api_key and
    username, a password whenever it has a username, and a dataset and a
    namespace that are not empty. *)
Theorem output_settings_settled (t : string) (kw : list (string * yaml.value)) (o : Output) :
  ElasticSearchOutput_init t kw = py.Return o ->
  output_type o = "elasticsearch" /\
  nonempty (cloud_id o) = negb (nonempty (elasticsearch_url o)) /\
  nonempty (api_key o) = negb (nonempty (username o)) /\
  (nonempty (username o) = true -> nonempty (password o) = true) /\
  nonempty (dataset o) = true /\ nonempty (namespace o) = true.
Proof.
  intros H. apply ElasticSearchOutput_init_loaded in H. destruct H as [_ H].
  apply check_kwargs_settled in H. exact H.
Qed.

(** X19 (config.py, the kwargs setter of ElasticSearchOutput): of the
    settings given, cloud_id and api_key are always kept; the
    elasticsearch_url is dropped when a cloud_id is given, the username
    when an api_key is given, and the password only when both an api_key
    and a username are given; a missing dataset becomes generic and a
    missing namespace default. *)
Theorem output_settings_precedence (t : string) (kw : list (string * yaml.value)) (o : Output) :
  ElasticSearchOutput_init t kw = py.Return o ->
  cloud_id o = given kw "cloud_id" /\
  api_key o = given kw "api_key" /\
  elasticsearch_url o =
    (if nonempty (given kw "cloud_id") then "" else given kw "elasticsearch_url") /\
  username o = (if nonempty (given kw "api_key") then "" else given kw "username") /\
  password o =
    (if nonempty (given kw "api_key") && nonempty (given kw "username") then ""
     else given kw "password") /\
  dataset o = (if nonempty (given kw "dataset") then given kw "dataset" else "generic") /\
  namespace o = (if nonempty (given kw "namespace") then given kw "namespace" else "default").
Proof.
  intros H. apply ElasticSearchOutput_init_loaded in H. destruct H as [_ H].
  unfold loaded, check_kwargs in H. cbn in H.
  destruct (given kw "cloud_id"), (given kw "elasticsearch_url"), (given kw "username"),
    (given kw "api_key"), (given kw "password"), (given kw "dataset"), (given kw "namespace");
    cbn in H; try discriminate; injection H as <-; cbn; repeat split; reflexivity.
Qed.

(** X20 (config.py, the kwargs getter and setter of ElasticSearchOutput):
    constructing an output again from the kwargs an output reports gives
    the same output. *)
Theorem output_kwargs_round_trip (t : string) (kw : list (string * yaml.value)) (o : Output) :
  ElasticSearchOutput_init t kw = py.Return o ->
  ElasticSearchOutput_init (output_type o) (kwargs_of o) = py.Return o.
Proof.
  intros H. apply ElasticSearchOutput_init_loaded in H. destruct H as [_ H].
  apply check_kwargs_settled in H. destruct H as [Ht [H1 [H2 [H3 [H4 H5]]]]].
  cbn in Ht. destruct o as [ty u c n p a d ns]. cbn in *. subst ty.
  destruct c, u; try discriminate; destruct a, n; try discriminate;
    destruct d; try discriminate; destruct ns; try discriminate;
    destruct p; try (specialize (H3 eq_refl); discriminate); reflexivity.
Qed.

(** After one output, an input accepts no other. *)
Lemma add_output_once (inp0 inp1 : Input) (ty : string) (kw : yaml.value) :
  _outputs inp0 = ∅ ->
  add_output inp0 ty kw = py.Return inp1 ->
  ty = "elasticsearch" /\
  input_type inp1 = input_type inp0 /\ input_id inp1 = input_id inp0 /\
  (exists kwargs o, kw = yaml.Dict kwargs /\
     ElasticSearchOutput_init "elasticsearch" kwargs = py.Return o /\
     _outputs inp1 = {[ "elasticsearch" := o ]}) /\
  forall ty2 kw2,
    (exists msg, add_output inp1 ty2 kw2 = py.Throw (py.Builtin (ValueError msg))) \/
    add_output inp1 ty2 kw2 = py.Throw (py.Builtin AssertionError).
Proof.
  intros He H. unfold add_output in H.
  destruct kw as [| | | | |kwargs]; try discriminate.
  rewrite He, lookup_empty in H.
  rewrite bool_decide_eq_false_2 in H by (intros [? ?]; discriminate).
  destruct (String.eqb_spec ty "elasticsearch") as [->|Hne]; [|discriminate].
  destruct (ElasticSearchOutput_init "elasticsearch" kwargs) as [o|e] eqn:Eo; [|discriminate].
  cbn [py.bind] in H. injection H as <-.
  destruct (output_settings_settled_aux _ _ _ Eo) as [Ht _]. rewrite Ht.
  split; [reflexivity|]. split; [reflexivity|]. split; [reflexivity|].
  split; [exists kwargs, o; split; [reflexivity|]; split; [exact Eo|reflexivity]|].
  intros ty2 kw2. unfold add_output.
  destruct kw2 as [| | | | |kwargs2]; try (left; eexists; reflexivity).
  cbn [_outputs set_outputs].
  destruct (String.eqb_spec ty2 "elasticsearch") as [->|Hne].
  - rewrite insert_empty, lookup_singleton_eq.
    rewrite bool_decide_eq_true_2 by (eexists; reflexivity). left. eexists; reflexivity.
  - rewrite insert_empty, lookup_singleton_ne by congruence.
    rewrite bool_decide_eq_false_2 by (intros [? ?]; discriminate). right. reflexivity.
Qed.

(** X21 (config.py, Input.add_output): an input holds at most one
    output.  The first output accepted by a new input is of type
    elasticsearch, and every later add_output raises a ValueError or an
    AssertionError, whatever its type and arguments. *)
Theorem input_holds_one_output (t i ty : string) (kw : yaml.value) (inp0 inp1 : Input) :
  Input_init t i = Ok inp0 ->
  add_output inp0 ty kw = py.Return inp1 ->
  ty = "elasticsearch" /\
  get_output_types inp1 = ["elasticsearch"] /\
  forall ty2 kw2,
    (exists msg, add_output inp1 ty2 kw2 = py.Throw (py.Builtin (ValueError msg))) \/
    add_output inp1 ty2 kw2 = py.Throw (py.Builtin AssertionError).
Proof.
  intros Hi H. unfold Input_init in Hi.
  destruct (bool_decide (t ∈ _available_input_types)); [|discriminate].
  injection Hi as <-.
  destruct (add_output_once {| input_type := t; input_id := i; _outputs := ∅ |} _ _ _ eq_refl H)
    as [Hty [_ [_ [[kwargs [o [_ [_ Ho]]]] Hall]]]].
  split; [exact Hty|]. split; [|exact Hall].
  unfold get_output_types. rewrite Ho, map_to_list_singleton. reflexivity.
Qed.

(** X22 (config.py, Input.add_output, get_output_by_type,
    delete_output_by_type): the output that add_output built is the one
    get_output_by_type returns for its type, and deleting that type
    gives back the input as it was. *)
Theorem add_then_delete_output (self self' : Input) (ty : string) (kw : yaml.value) :
  add_output self ty kw = py.Return self' ->
  (exists kwargs o, kw = yaml.Dict kwargs /\
     ElasticSearchOutput_init ty kwargs = py.Return o /\
     get_output_by_type self' ty = Some o) /\
  delete_output_by_type self' ty = py.Return self.
Proof.
  intros H. unfold add_output in H.
  destruct kw as [| | | | |kwargs]; try discriminate.
  destruct (bool_decide (is_Some (_outputs self !! ty))) eqn:B; [discriminate|].
  apply bool_decide_eq_false in B.
  assert (N : _outputs self !! ty = None).
  { destruct (_outputs self !! ty) eqn:E; [|reflexivity]. exfalso. apply B. eexists; reflexivity. }
  destruct (String.eqb_spec ty "elasticsearch") as [->|Hne]; [|discriminate].
  destruct (ElasticSearchOutput_init "elasticsearch" kwargs) as [o|e] eqn:Eo; [|discriminate].
  cbn [py.bind] in H. injection H as <-.
  destruct (output_settings_settled_aux _ _ _ Eo) as [Ht _]. rewrite Ht.
  split.
  - exists kwargs, o. split; [reflexivity|]. split; [exact Eo|].
    unfold get_output_by_type. cbn [_outputs set_outputs]. apply lookup_insert_eq.
  - unfold delete_output_by_type. cbn [_outputs set_outputs].
    rewrite lookup_insert_eq. rewrite delete_insert_id by exact N.
    destruct self; reflexivity.
Qed.

End ConfigOutputs.

(** ** parse_config *)

Section ConfigParse.
Import config.
Local Open Scope string_scope.

Lemma required_ok (v : yaml.value) (key msg : string) (is_T : yaml.value -> bool)
      (x : yaml.value) :
  py.required v key is_T msg = py.Return x ->
  exists d, v = yaml.Dict d /\ yaml.lookup d key = Some x /\ is_T x = true.
Proof.
  unfold py.required. destruct v as [| | |s|l|d]; cbn; try discriminate.
  - destruct (include_exlude.occurs_in _ _); discriminate.
  - destruct (existsb _ l); discriminate.
  - destruct (yaml.lookup d key) as [y|] eqn:E.
    + rewrite bool_decide_eq_true_2 by (eexists; reflexivity). cbn.
      destruct (is_T y) eqn:T; [|discriminate]. intros [= <-].
      exists d. split; [reflexivity|]. split; [first [exact E|reflexivity]|exact T].
    + rewrite bool_decide_eq_false_2 by (intros [? ?]; discriminate). discriminate.
Qed.

Lemma bind_ok {A B} (m : py.outcome A) (f : A -> py.outcome B) (b : B) :
  py.bind m f = py.Return b -> exists a, m = py.Return a /\ f a = py.Return b.
Proof. destruct m as [a|e]; [|discriminate]. intros H. exists a. split; [reflexivity|exact H]. Qed.

(** The loop over the outputs of a new input: none or one. *)
Lemma parse_outputs_new (l : list yaml.value) (inp0 inp : Input) :
  _outputs inp0 = ∅ ->
  parse_outputs l inp0 = py.Return inp ->
  input_type inp = input_type inp0 /\ input_id inp = input_id inp0 /\
  match l with
  | [] => _outputs inp = ∅
  | [output_config] =>
    exists d kwargs o,
      output_config = yaml.Dict d /\
      yaml.lookup d "type" = Some (yaml.Str "elasticsearch") /\
      yaml.lookup d "args" = Some (yaml.Dict kwargs) /\
      ElasticSearchOutput_init "elasticsearch" kwargs = py.Return o /\
      _outputs inp = {[ "elasticsearch" := o ]}
  | _ => False
  end.
Proof.
  intros He H. destruct l as [|oc rest].
  - cbn in H. injection H as <-. split; [reflexivity|]. split; [reflexivity|exact He].
  - cbn [parse_outputs] in H.
    apply bind_ok in H. destruct H as [ty [Hty H]].
    apply bind_ok in H. destruct H as [args [Hargs H]].
    apply required_ok in Hty. destruct Hty as [d [-> [Lt Tt]]].
    apply required_ok in Hargs. destruct Hargs as [d' [Ed [La Ta]]].
    injection Ed as <-.
    destruct ty as [| | |type_| |]; try discriminate.
    destruct args as [| | | | |kwargs]; try discriminate.
    apply bind_ok in H. destruct H as [inp1 [Hadd H]].
    destruct (add_output_once _ _ _ _ He Hadd)
      as [-> [T1 [I1 [[kwargs' [o [Ek [Eo Ho]]]] Hall]]]].
    injection Ek as <-.
    destruct rest as [|oc2 rest].
    + cbn in H. injection H as <-. split; [exact T1|]. split; [exact I1|].
      exists d, kwargs, o. split; [reflexivity|]. split; [exact Lt|]. split; [exact La|].
      split; [exact Eo|exact Ho].
    + exfalso. cbn [parse_outputs] in H.
      apply bind_ok in H. destruct H as [ty2 [_ H]].
      apply bind_ok in H. destruct H as [args2 [_ H]].
      destruct ty2 as [| | |type2| |]; try discriminate.
      apply bind_ok in H. destruct H as [inp2 [Hadd2 _]].
      destruct (Hall type2 args2) as [[msg He2]|He2]; congruence.
Qed.

Lemma parse_input_inv (input_config : yaml.value) (inp : Input) :
  parse_input input_config = py.Return inp ->
  exists d i l,
    input_config = yaml.Dict d /\
    yaml.lookup d "type" = Some (yaml.Str "sqs") /\
    yaml.lookup d "id" = Some (yaml.Str i) /\
    yaml.lookup d "outputs" = Some (yaml.List l) /\
    input_type inp = "sqs" /\ input_id inp = i /\
    parse_outputs l {| input_type := "sqs"; input_id := i; _outputs := ∅ |} = py.Return inp.
Proof.
  intros H. unfold parse_input in H.
  apply bind_ok in H. destruct H as [ty [Hty H]].
  apply bind_ok in H. destruct H as [id_ [Hid H]].
  apply required_ok in Hty. destruct Hty as [d [-> [Lt Tt]]].
  apply required_ok in Hid. destruct Hid as [d' [Ed [Li Ti]]]. injection Ed as <-.
  destruct ty as [| | |type_| |]; try discriminate.
  destruct id_ as [| | |i| |]; try discriminate.
  apply bind_ok in H. destruct H as [inp0 [Hinit H]].
  apply bind_ok in H. destruct H as [outs [Houts H]].
  apply required_ok in Houts. destruct Houts as [d' [Ed [Lo To]]]. injection Ed as <-.
  destruct outs as [| | | |l|]; try discriminate.
  unfold Input_init in Hinit.
  destruct (bool_decide (type_ ∈ _available_input_types)) eqn:B; [|discriminate].
  apply bool_decide_eq_true in B. unfold _available_input_types in B.
  apply list_elem_of_singleton in B. subst type_.
  cbn in Hinit. injection Hinit as <-.
  destruct (parse_outputs_new l {| input_type := "sqs"; input_id := i; _outputs := ∅ |} _ eq_refl H)
    as [T [I _]].
  cbn in T, I. exists d, i, l. split; [reflexivity|]. do 5 (split; [assumption|]). exact H.
Qed.

(** X23 (config.py, parse_config): an input of the document is accepted
    only if it is a mapping with type sqs, a string id and a list of
    outputs of at most one element; the parsed input has that type and
    id, and its output types are elasticsearch for one output and none
    for an empty list. *)
Theorem parse_input_shape (input_config : yaml.value) (inp : Input) :
  parse_input input_config = py.Return inp ->
  exists d i l,
    input_config = yaml.Dict d /\
    yaml.lookup d "type" = Some (yaml.Str "sqs") /\
    yaml.lookup d "id" = Some (yaml.Str i) /\
    yaml.lookup d "outputs" = Some (yaml.List l) /\
    (length l <= 1)%nat /\
    input_type inp = "sqs" /\ input_id inp = i /\
    get_output_types inp = match l with [] => [] | _ => ["elasticsearch"] end.
Proof.
  intros H. destruct (parse_input_inv _ _ H) as [d [i [l [E [Lt [Li [Lo [T [I P]]]]]]]]].
  exists d, i, l. do 4 (split; [assumption|]).
  destruct (parse_outputs_new l {| input_type := "sqs"; input_id := i; _outputs := ∅ |} _ eq_refl P)
    as [_ [_ S]].
  destruct l as [|oc [|oc2 rest]]; [| |contradiction].
  - split; [cbn; lia|]. split; [exact T|]. split; [exact I|].
    unfold get_output_types. rewrite S. reflexivity.
  - destruct S as [d' [kwargs [o [_ [_ [_ [_ S]]]]]]].
    split; [cbn; lia|]. split; [exact T|]. split; [exact I|].
    unfold get_output_types. rewrite S, map_to_list_singleton. reflexivity.
Qed.

Lemma parse_inputs_inv (inputs : list yaml.value) :
  forall c0 c, parse_inputs inputs c0 = py.Return c ->
  exists parsed,
    Forall2 (fun ic inp => parse_input ic = py.Return inp) inputs parsed /\
    List.NoDup (List.map (fun inp => (input_type inp, input_id inp)) parsed) /\
    (forall inp, In inp parsed ->
       get_input_by_type_and_id c0 (input_type inp) (input_id inp) = None) /\
    forall t i,
      get_input_by_type_and_id c t i =
      match List.find (fun inp => bool_decide (t = input_type inp /\ i = input_id inp)) parsed with
      | Some inp => Some inp
      | None => get_input_by_type_and_id c0 t i
      end.
Proof.
  induction inputs as [|ic rest IH]; intros c0 c H.
  - cbn in H. injection H as <-. exists []. split; [constructor|].
    split; [constructor|]. split; [intros ? []|]. intros; reflexivity.
  - cbn [parse_inputs] in H.
    apply bind_ok in H. destruct H as [inp [Hp H]].
    apply bind_ok in H. destruct H as [c1 [Ha H]].
    destruct (add_input c0 inp) as [c1'|e] eqn:Ea; [|discriminate].
    cbn in Ha. injection Ha as ->.
    destruct (add_input_lookup _ _ _ Ea) as [N L].
    destruct (IH _ _ H) as [parsed [F [ND [D G]]]].
    exists (inp :: parsed). split; [constructor; assumption|]. split; [|split].
    + cbn [List.map]. constructor; [|exact ND].
      intros Hin. apply List.in_map_iff in Hin. destruct Hin as [x [Ex Hx]].
      injection Ex as Et Ei. specialize (D x Hx). rewrite L, Et, Ei in D.
      rewrite bool_decide_eq_true_2 in D by (split; reflexivity). discriminate.
    + intros x [<-|Hx]; [exact N|].
      specialize (D x Hx). rewrite L in D.
      destruct (bool_decide _); [discriminate|exact D].
    + intros t i. rewrite G. cbn [List.find].
      destruct (bool_decide (t = input_type inp /\ i = input_id inp)) eqn:B.
      * destruct (List.find _ parsed) as [x|] eqn:Ef; [|rewrite L, B; reflexivity].
        exfalso. apply List.find_some in Ef. destruct Ef as [Hx Bx].
        apply bool_decide_eq_true in Bx. destruct Bx as [-> ->].
        specialize (D x Hx). rewrite L, B in D. discriminate.
      * destruct (List.find _ parsed) as [x|]; [reflexivity|]. rewrite L, B. reflexivity.
Qed.

Lemma find_unique (parsed : list Input) (t i : string) (x : Input) :
  List.NoDup (List.map input_id parsed) ->
  Forall (fun inp => input_type inp = "sqs") parsed ->
  In x parsed -> input_type x = t -> input_id x = i ->
  List.find (fun inp => bool_decide (t = input_type inp /\ i = input_id inp)) parsed = Some x.
Proof.
  intros ND. induction parsed as [|y rest IH]; intros Fa Hin Ht Hi; [destruct Hin|].
  cbn [List.find]. cbn in ND. apply List.NoDup_cons_iff in ND. destruct ND as [Ny ND].
  apply List.Forall_cons_iff in Fa. destruct Fa as [Ty Fa].
  destruct Hin as [->|Hin].
  - rewrite bool_decide_eq_true_2 by (split; congruence). reflexivity.
  - rewrite bool_decide_eq_false_2; [apply IH; assumption|].
    intros [_ E]. apply Ny. rewrite <- E, <- Hi. apply List.in_map, Hin.
Qed.

(** X24 (config.py, parse_config): a document that parses is a mapping
    whose inputs entry is a list; every element of that list was parsed
    into an input, no two of them have the same id, and the inputs the
    Config returns by type and id are exactly those. *)
Theorem parse_config_inputs (y : yaml.value) (conf : Config) :
  parse_config y = py.Return conf ->
  exists top inputs parsed,
    y = yaml.Dict top /\
    yaml.lookup top "inputs" = Some (yaml.List inputs) /\
    Forall2 (fun ic inp => parse_input ic = py.Return inp) inputs parsed /\
    List.NoDup (List.map input_id parsed) /\
    forall t i inp,
      get_input_by_type_and_id conf t i = Some inp <->
      In inp parsed /\ input_type inp = t /\ input_id inp = i.
Proof.
  intros H. unfold parse_config in H.
  destruct y as [| | | | |top]; try discriminate.
  destruct (yaml.lookup top "inputs") as [[| | | |inputs|]|] eqn:E; try discriminate.
  destruct (parse_inputs_inv _ _ _ H) as [parsed [F [NDk [_ G]]]].
  assert (Ty : Forall (fun inp => input_type inp = "sqs") parsed).
  { clear -F. induction F as [|ic inp ics inps Hp F IH]; constructor; [|exact IH].
    destruct (parse_input_inv _ _ Hp) as [d [i [l [_ [_ [_ [_ [T _]]]]]]]]. exact T. }
  assert (ND : List.NoDup (List.map input_id parsed)).
  { clear -NDk Ty. induction parsed as [|x rest IH]; [constructor|].
    cbn in NDk |- *. apply List.NoDup_cons_iff in NDk. destruct NDk as [Nx NDk].
    apply List.Forall_cons_iff in Ty. destruct Ty as [Tx Ty].
    constructor; [|apply IH; assumption].
    intros Hin. apply Nx. apply List.in_map_iff in Hin. destruct Hin as [z [Ez Hz]].
    apply List.in_map_iff. exists z. split; [|exact Hz].
    rewrite List.Forall_forall in Ty. rewrite (Ty z Hz), Tx, Ez. reflexivity. }
  exists top, inputs, parsed. do 4 (split; [assumption || reflexivity|]).
  intros t i inp. rewrite G. split.
  - destruct (List.find _ parsed) as [x|] eqn:Ef; [|discriminate].
    intros [= ->]. apply List.find_some in Ef. destruct Ef as [Hx Bx].
    apply bool_decide_eq_true in Bx. destruct Bx as [-> ->]. auto.
  - intros [Hin [Ht Hi]]. rewrite (find_unique _ _ _ _ ND Ty Hin Ht Hi). reflexivity.
Qed.


Lemma bind_expected {A B} (m : py.outcome A) (f : A -> py.outcome B) :
  py.expected m -> (forall a, py.expected (f a)) -> py.expected (py.bind m f).
Proof. destruct m as [a|e]; intros Hm Hf; [apply Hf|exact Hm]. Qed.

Lemma required_expected (v : yaml.value) (key msg : string) (is_T : yaml.value -> bool) :
  py.expected (py.required v key is_T msg).
Proof.
  unfold py.required. destruct v as [| | |s|l|d]; cbn; try exact I.
  - destruct (include_exlude.occurs_in _ _); exact I.
  - destruct (existsb _ l); exact I.
  - destruct (yaml.lookup d key) as [y|] eqn:E.
    + rewrite bool_decide_eq_true_2 by (eexists; reflexivity). cbn.
      destruct (is_T y); exact I.
    + rewrite bool_decide_eq_false_2 by (intros [? ?]; discriminate). exact I.
Qed.

Lemma lookup_present (kw : list (string * yaml.value)) (x : string) :
  In x (List.map fst kw) -> exists v, yaml.lookup kw x = Some v.
Proof.
  induction kw as [|[k v] kw IH]; [intros []|]. cbn. intros [->|H].
  - rewrite String.eqb_refl. eexists; reflexivity.
  - destruct (String.eqb k x); [eexists; reflexivity|apply IH, H].
Qed.

Lemma set_kwargs_expected (keys : list string) (kw : list (string * yaml.value)) :
  (forall x, In x keys -> In x (List.map fst kw)) ->
  forall o, py.expected (set_kwargs keys kw o).
Proof.
  induction keys as [|x rest IH]; intros Hk o; [exact I|].
  cbn [set_kwargs].
  destruct (existsb (String.eqb x) _kwargs); [|apply IH; intros; apply Hk; right; assumption].
  destruct (lookup_present kw x (Hk x (or_introl eq_refl))) as [v ->].
  apply bind_expected.
  - destruct v; exact I.
  - apply IH. intros; apply Hk; right; assumption.
Qed.

Lemma check_kwargs_expected (o : Output) : py.expected (check_kwargs o).
Proof.
  destruct o as [t u c n p a d ns]. unfold check_kwargs. cbn.
  destruct c, u, n, a, p, d, ns; exact I.
Qed.

Lemma add_output_expected (self : Input) (ty : string) (kw : yaml.value) :
  py.expected (add_output self ty kw).
Proof.
  unfold add_output. destruct kw as [| | | | |kwargs]; try exact I.
  destruct (bool_decide _); [exact I|].
  destruct (String.eqb ty "elasticsearch"); [|exact I].
  apply bind_expected; [|intros; exact I].
  unfold ElasticSearchOutput_init. destruct (negb _); [exact I|].
  apply bind_expected; [|apply check_kwargs_expected].
  apply set_kwargs_expected. auto.
Qed.

Lemma parse_outputs_expected (l : list yaml.value) :
  forall inp, py.expected (parse_outputs l inp).
Proof.
  induction l as [|oc rest IH]; intros inp; [exact I|]. cbn [parse_outputs].
  apply bind_expected; [apply required_expected|]. intros ty.
  apply bind_expected; [apply required_expected|]. intros args.
  destruct ty; try exact I.
  apply bind_expected; [apply add_output_expected|apply IH].
Qed.

Lemma parse_input_expected (ic : yaml.value) : py.expected (parse_input ic).
Proof.
  unfold parse_input.
  apply bind_expected; [apply required_expected|]. intros ty.
  apply bind_expected; [apply required_expected|]. intros id_.
  destruct ty; try exact I. destruct id_; try exact I.
  apply bind_expected.
  - unfold Input_init. destruct (bool_decide _); exact I.
  - intros inp. apply bind_expected; [apply required_expected|]. intros outs.
    destruct outs; try exact I. apply parse_outputs_expected.
Qed.

Lemma add_input_expected (conf : Config) (inp : Input) :
  py.expected (py.lift (add_input conf inp)).
Proof.
  unfold add_input. destruct (_inputs conf !! input_type inp) as [by_id|]; [|exact I].
  destruct (by_id !! input_id inp); exact I.
Qed.

(** X25 (config.py, parse_config): whatever document is loaded,
    parse_config returns a Config or raises a ValueError, an
    AssertionError or a TypeError; its indexing of the document's
    mappings never raises a KeyError. *)
Theorem parse_config_expected (y : yaml.value) : py.expected (parse_config y).
Proof.
  unfold parse_config. destruct y as [| | | | |top]; try exact I.
  destruct (yaml.lookup top "inputs") as [[| | | |inputs|]|]; try exact I.
  generalize Config_init. induction inputs as [|ic rest IH]; intros conf; [exact I|].
  cbn [parse_inputs].
  apply bind_expected; [apply parse_input_expected|]. intros inp.
  apply bind_expected; [apply add_input_expected|apply IH].
Qed.

End ConfigParse.

(** ** The theorems above, on the example document *)

Lemma add_input_then_get_witness :
  exists conf',
    config.add_input config.Config_init config.example_input = Ok conf' /\
    config.get_input_by_type_and_id conf' "sqs" "arn:aws:sqs:eu-central-1:123456789:queue"
    = Some config.example_input.
Proof.
  eexists. split; [vm_compute; reflexivity|].
  refine (proj1 (add_input_then_get config.Config_init _ config.example_input _)).
  vm_compute. reflexivity.
Defined.

Lemma output_settings_settled_witness :
  exists o,
    config.ElasticSearchOutput_init "elasticsearch" config.example_args = py.Return o /\
    config.output_type o = "elasticsearch"%string /\
    config.nonempty (config.cloud_id o) = negb (config.nonempty (config.elasticsearch_url o)).
Proof.
  eexists. split; [vm_compute; reflexivity|].
  refine ((fun H => conj (proj1 H) (proj1 (proj2 H)))
            (output_settings_settled "elasticsearch" config.example_args _ _)).
  vm_compute. reflexivity.
Defined.

Lemma output_settings_precedence_witness :
  exists o,
    config.ElasticSearchOutput_init "elasticsearch" config.example_args = py.Return o /\
    config.cloud_id o = "deployment:abc"%string /\ config.api_key o = "key"%string.
Proof.
  eexists. split; [vm_compute; reflexivity|].
  refine ((fun H => conj (proj1 H) (proj1 (proj2 H)))
            (output_settings_precedence "elasticsearch" config.example_args _ _)).
  vm_compute. reflexivity.
Defined.

Lemma output_kwargs_round_trip_witness :
  exists o,
    config.ElasticSearchOutput_init "elasticsearch" config.example_args = py.Return o /\
    config.ElasticSearchOutput_init (config.output_type o) (config.kwargs_of o) = py.Return o.
Proof.
  eexists. split; [vm_compute; reflexivity|].
  refine (output_kwargs_round_trip "elasticsearch" config.example_args _ _).
  vm_compute. reflexivity.
Defined.

Lemma input_holds_one_output_witness :
  exists inp1,
    config.add_output config.example_input "elasticsearch" (yaml.Dict config.example_args)
    = py.Return inp1 /\
    config.get_output_types inp1 = ["elasticsearch"%string].
Proof.
  eexists. split; [vm_compute; reflexivity|].
  refine (proj1 (proj2 (input_holds_one_output
                          "sqs" "arn:aws:sqs:eu-central-1:123456789:queue" "elasticsearch"
                          (yaml.Dict config.example_args) config.example_input _ _ _)));
    vm_compute; reflexivity.
Defined.

Lemma add_then_delete_output_witness :
  exists inp1,
    config.add_output config.example_input "elasticsearch" (yaml.Dict config.example_args)
    = py.Return inp1 /\
    config.delete_output_by_type inp1 "elasticsearch" = py.Return config.example_input.
Proof.
  eexists. split; [vm_compute; reflexivity|].
  refine (proj2 (add_then_delete_output config.example_input _ "elasticsearch"
                   (yaml.Dict config.example_args) _)).
  vm_compute. reflexivity.
Defined.

Lemma parse_input_shape_witness :
  exists inp,
    config.parse_input config.example_input_config = py.Return inp /\
    exists d i l,
      config.example_input_config = yaml.Dict d /\
      yaml.lookup d "type" = Some (yaml.Str "sqs") /\
      yaml.lookup d "id" = Some (yaml.Str i) /\
      yaml.lookup d "outputs" = Some (yaml.List l) /\
      (length l <= 1)%nat /\
      config.input_type inp = "sqs"%string /\ config.input_id inp = i /\
      config.get_output_types inp = match l with [] => [] | _ => ["elasticsearch"%string] end.
Proof.
  eexists. split; [vm_compute; reflexivity|].
  refine (parse_input_shape config.example_input_config _ _).
  vm_compute. reflexivity.
Defined.

Lemma parse_config_inputs_witness :
  exists conf,
    config.parse_config config.example_document = py.Return conf /\
    exists top inputs parsed,
      config.example_document = yaml.Dict top /\
      yaml.lookup top "inputs" = Some (yaml.List inputs) /\
      Forall2 (fun ic inp => config.parse_input ic = py.Return inp) inputs parsed /\
      List.NoDup (List.map config.input_id parsed) /\
      forall t i inp,
        config.get_input_by_type_and_id conf t i = Some inp <->
        In inp parsed /\ config.input_type inp = t /\ config.input_id inp = i.
Proof.
  eexists. split; [vm_compute; reflexivity|].
  refine (parse_config_inputs config.example_document _ _).
  vm_compute. reflexivity.
Defined.

(** * More of the code: the tags of an enriched event *)

Section ShipperEnrichment.
Import sqs_trigger es.
Local Open Scope string_scope.





End ShipperEnrichment.
